(** * A shallow embedding of the trading bot's validation core (src/bot.py)

    The development follows [BasicBot] in [src/bot.py]:
    - Python's numbers as the code uses them: [float], [str(float)],
      [decimal.Decimal], [Decimal.quantize(..., rounding=ROUND_DOWN)];
    - the JSON records the exchange client returns, as finite maps;
    - the bot itself as a state-and-exception monad over the symbol cache
      and the trace of remote calls.

    Numbers.  A finite Python [float] is represented by the decimal numeral
    that [repr] prints for it (sign, digits, power of ten).  The order and
    equality of floats are the order and equality of these numerals, and the
    numeral is what [Decimal(str(x))] reads back, so the representation is
    exact on every float whose shortest representation has at most fifteen
    significant digits (the ones that survive [float(str)] unchanged).
    Infinities and NaN are outside the model.  Calls to the logger are
    presentation and are left out, except for the evaluation of their
    arguments where that evaluation can raise. *)

From Stdlib Require Import ZArith NArith QArith Qpower String Ascii.
From Stdlib Require Import DecimalString DecimalPos DecimalN Lia.
From stdpp Require Import gmap strings list.

Local Open Scope Z_scope.

(** ** Exceptions and results *)

Inductive exn :=
  | ValueError (msg : string)
  | KeyError (key : string)
  | TypeError
  | InvalidOperation
  | BinanceAPIException (code : Z) (message : string)
  | BinanceOrderException (code : Z) (message : string).

Inductive result (A : Type) :=
  | Ok (a : A)
  | Err (e : exn).
Arguments Ok {A} a.
Arguments Err {A} e.

Definition rbind {A B} (r : result A) (k : A -> result B) : result B :=
  match r with
  | Ok a => k a
  | Err e => Err e
  end.

Declare Scope result_scope.
Delimit Scope result_scope with res.
Notation "x <-? c ; k" := (rbind c (fun x => k))
  (at level 100, c at next level, right associativity) : result_scope.

(** ** Python floats *)

Module Py.

(** [(-1)^f_sign * f_man * 10^f_exp]. *)
Record pyfloat := PyFloat { f_sign : bool; f_man : N; f_exp : Z }.

Definition signed (s : bool) (m : N) : Z :=
  if s then - Z.of_N m else Z.of_N m.

Definition pow10 (e : Z) : Q := (inject_Z 10 ^ e)%Q.

Definition float_val (x : pyfloat) : Q :=
  (inject_Z (signed (f_sign x) (f_man x)) * pow10 (f_exp x))%Q.

(** [x < y], [x > y], [x == y], [x != y] on floats. *)
Definition float_lt (x y : pyfloat) : bool := negb (Qle_bool (float_val y) (float_val x)).
Definition float_gt (x y : pyfloat) : bool := float_lt y x.
Definition float_eq (x y : pyfloat) : bool := Qeq_bool (float_val x) (float_val y).
Definition float_ne (x y : pyfloat) : bool := negb (float_eq x y).

(** Truth value of a float: [bool(x)] is [x != 0]. *)
Definition float_truthy (x : pyfloat) : bool := negb (f_man x =? 0)%N.

(** Trailing zeros of the digits move into the exponent, as in the shortest
    representation [repr] prints. *)
Fixpoint strip_zeros (fuel : nat) (m : N) (e : Z) : N * Z :=
  match fuel with
  | O => (m, e)
  | S fuel' =>
      if (m mod 10 =? 0)%N then strip_zeros fuel' (m / 10)%N (e + 1) else (m, e)
  end.

Definition normalize (m : N) (e : Z) : N * Z :=
  if (m =? 0)%N then (0%N, 0) else strip_zeros (N.to_nat (N.size m)) m e.

Definition mkfloat (s : bool) (m : N) (e : Z) : pyfloat :=
  let '(m', e') := normalize m e in PyFloat s m' e'.

Definition float_zero : pyfloat := PyFloat false 0 0.

(** [float(n)] for a Python [int]. *)
Definition float_of_int (z : Z) : pyfloat := mkfloat (z <? 0) (Z.abs_N z) 0.

(** [int(x)] for a float: truncation toward zero. *)
Definition int_of_float (x : pyfloat) : Z :=
  if 0 <=? f_exp x
  then signed (f_sign x) (f_man x * 10 ^ Z.to_N (f_exp x))
  else signed (f_sign x) (f_man x / 10 ^ Z.to_N (- f_exp x)).

(** *** Reading numerals: [float(s)] and [int(s)] on a string

    The readers accept the plain numerals the exchange sends: an optional
    sign, digits with an optional fraction, an optional exponent.  Python
    also accepts surrounding blanks, underscores and the names of the
    non-finite floats; those are outside the model. *)

Definition digit_of_ascii (c : ascii) : option N :=
  let n := N_of_ascii c in
  if ((48 <=? n) && (n <=? 57))%N then Some (n - 48)%N else None.

Fixpoint read_digits (s : string) (acc : N) (cnt : nat) : N * nat * string :=
  match s with
  | String c s' =>
      match digit_of_ascii c with
      | Some d => read_digits s' (acc * 10 + d)%N (S cnt)
      | None => (acc, cnt, s)
      end
  | EmptyString => (acc, cnt, s)
  end.

Definition read_sign (s : string) : bool * string :=
  match s with
  | String "-" s' => (true, s')
  | String "+" s' => (false, s')
  | _ => (false, s)
  end.

(** The exponent part of a numeral: nothing, or [e] and a signed integer. *)
Definition read_exponent (s : string) : option Z :=
  match s with
  | EmptyString => Some 0
  | String ch s' =>
      if (Ascii.eqb ch "e" || Ascii.eqb ch "E")%bool then
        let '(esg, s1) := read_sign s' in
        let '(ev, ne, s2) := read_digits s1 0 0 in
        match ne, s2 with
        | S _, EmptyString => Some (signed esg ev)
        | _, _ => None
        end
      else None
  end.

(** Coefficient and exponent of an unsigned numeral: the digits of the
    integer and fraction parts read as one integer, the exponent lowered by
    the number of fraction digits. *)
Definition read_unsigned (s : string) : option (N * Z) :=
  let '(i, ni, s1) := read_digits s 0 0 in
  let '(c, nf, s2) :=
    match s1 with
    | String "." s1' => read_digits s1' i 0
    | _ => (i, O, s1)
    end in
  if (ni + nf =? 0)%nat then None
  else
    match read_exponent s2 with
    | Some ex => Some (c, ex - Z.of_nat nf)
    | None => None
    end.

Definition parse_number (s : string) : option (bool * N * Z) :=
  let '(sg, s1) := read_sign s in
  match read_unsigned s1 with
  | Some (c, e) => Some (sg, c, e)
  | None => None
  end.

Definition float_of_string (s : string) : result pyfloat :=
  match parse_number s with
  | Some (sg, c, e) => Ok (mkfloat sg c e)
  | None => Err (ValueError ("could not convert string to float: " +:+ s))
  end.

Definition int_of_string (s : string) : result Z :=
  let '(sg, s1) := read_sign s in
  let '(v, n, s2) := read_digits s1 0 0 in
  match n, s2 with
  | S _, EmptyString => Ok (signed sg v)
  | _, _ => Err (ValueError ("invalid literal for int() with base 10: " +:+ s))
  end.

(** *** Printing: [str(x)] on a float

    [repr] prints the shortest digits [d1...dn] with the decimal point at
    [decpt] ([x = 0.d1...dn * 10^decpt]); scientific notation is used when
    [decpt <= -4] or [decpt > 16], and a whole number in fixed notation gets
    [".0"]. *)

Definition digits_of_N (m : N) : string := NilEmpty.string_of_uint (N.to_uint m).

Definition ndigits (m : N) : Z := Z.of_nat (Decimal.nb_digits (N.to_uint m)).

Fixpoint zeros (n : nat) : string :=
  match n with
  | O => EmptyString
  | S n' => String "0" (zeros n')
  end.

Definition str_exponent (e : Z) : string :=
  let a := Z.abs_N e in
  (if e <? 0 then "e-" else "e+") +:+
  (if (a <? 10)%N then "0" else "") +:+ digits_of_N a.

Definition str_float (x : pyfloat) : string :=
  let '(m, e) := normalize (f_man x) (f_exp x) in
  let ds := digits_of_N m in
  let n := Z.of_nat (String.length ds) in
  let decpt := n + e in
  (if f_sign x then "-" else "") +:+
  (if (decpt <=? -4) || (16 <? decpt) then
     substring 0 1 ds +:+
     (if 1 <? n then "." +:+ substring 1 (Z.to_nat (n - 1)) ds else "") +:+
     str_exponent (decpt - 1)
   else if decpt <=? 0 then
     "0." +:+ zeros (Z.to_nat (- decpt)) +:+ ds
   else if decpt <? n then
     substring 0 (Z.to_nat decpt) ds +:+ "." +:+
     substring (Z.to_nat decpt) (Z.to_nat (n - decpt)) ds
   else
     ds +:+ zeros (Z.to_nat (decpt - n)) +:+ ".0").

(** ** [decimal.Decimal] *)

(** [(-1)^d_sign * d_int * 10^d_exp], the triple Python keeps. *)
Record Decimal := mkDecimal { d_sign : bool; d_int : N; d_exp : Z }.

Definition Decimal_val (d : Decimal) : Q :=
  (inject_Z (signed (d_sign d) (d_int d)) * pow10 (d_exp d))%Q.

(** [Decimal(s)] on a string: the numeral as written, trailing zeros kept. *)
Definition Decimal_of_string (s : string) : result Decimal :=
  match parse_number s with
  | Some (sg, c, e) => Ok (mkDecimal sg c e)
  | None => Err InvalidOperation
  end.

(** [Decimal(str(x))], computed on the numeral: in scientific notation and
    for a fraction the exponent is the float's own; a whole number in fixed
    notation is printed with [".0"], so its exponent is [-1]. *)
Definition Decimal_of_str_float (x : pyfloat) : Decimal :=
  let '(m, e) := normalize (f_man x) (f_exp x) in
  let decpt := ndigits m + e in
  if (decpt <=? -4) || (16 <? decpt) || (e <? 0)
  then mkDecimal (f_sign x) m e
  else mkDecimal (f_sign x) (m * 10 ^ Z.to_N (e + 1)) (-1).

(** The default context: [prec=28], [Emax=999999], [Emin=-999999]. *)
Definition prec : Z := 28.
Definition Emax : Z := 999999.
Definition Emin : Z := -999999.
Definition Etiny : Z := Emin - prec + 1.

Definition adjusted (d : Decimal) : Z := d_exp d + ndigits (d_int d) - 1.

(** [_rescale(exp, ROUND_DOWN)]: pad with zeros, or drop the low digits. *)
Definition rescale_down (d : Decimal) (exp : Z) : Decimal :=
  if (d_int d =? 0)%N then mkDecimal (d_sign d) 0 exp
  else if exp <=? d_exp d
  then mkDecimal (d_sign d) (d_int d * 10 ^ Z.to_N (d_exp d - exp)) exp
  else mkDecimal (d_sign d) (d_int d / 10 ^ Z.to_N (exp - d_exp d)) exp.

(** [d.quantize(e, rounding=ROUND_DOWN)] in the default context: only the
    exponent of [e] is used; [InvalidOperation] is trapped and raises. *)
Definition quantize_ROUND_DOWN (d e : Decimal) : result Decimal :=
  if negb ((Etiny <=? d_exp e) && (d_exp e <=? Emax)) then Err InvalidOperation
  else if (d_int d =? 0)%N then Ok (mkDecimal (d_sign d) 0 (d_exp e))
  else if Emax <? adjusted d then Err InvalidOperation
  else if prec <? adjusted d - d_exp e + 1 then Err InvalidOperation
  else
    let ans := rescale_down d (d_exp e) in
    if Emax <? adjusted ans then Err InvalidOperation
    else if prec <? ndigits (d_int ans) then Err InvalidOperation
    else Ok ans.

(** [float(d)] on a Decimal. *)
Definition float_of_Decimal (d : Decimal) : pyfloat :=
  mkfloat (d_sign d) (d_int d) (d_exp d).

End Py.

Import Py.

(** ** JSON values and records *)

Inductive pyval :=
  | PNone
  | PBool (b : bool)
  | PInt (z : Z)
  | PFloat (x : pyfloat)
  | PStr (s : string).

(** A flat JSON object: a filter item, a raw order, a raw position. *)
Abbreviation record := (gmap string pyval).

(** [d[k]]: raises [KeyError] on a missing key. *)
Definition getitem (d : record) (k : string) : result pyval :=
  match d !! k with
  | Some v => Ok v
  | None => Err (KeyError k)
  end.

(** [d.get(k, dflt)] and [d.get(k)]. *)
Definition get_default (d : record) (k : string) (dflt : pyval) : pyval :=
  default dflt (d !! k).
Definition get (d : record) (k : string) : pyval := get_default d k PNone.

(** [v == s] for a string [s]. *)
Definition eq_str (v : pyval) (s : string) : bool :=
  match v with
  | PStr s' => String.eqb s' s
  | _ => false
  end.

(** Truth value of a Python object. *)
Definition truthy (v : pyval) : bool :=
  match v with
  | PNone => false
  | PBool b => b
  | PInt z => negb (z =? 0)
  | PFloat x => float_truthy x
  | PStr s => negb (String.eqb s "")
  end.

(** [float(v)] and [int(v)]. *)
Definition py_float (v : pyval) : result pyfloat :=
  match v with
  | PNone => Err TypeError
  | PBool b => Ok (float_of_int (if b then 1 else 0))
  | PInt z => Ok (float_of_int z)
  | PFloat x => Ok x
  | PStr s => float_of_string s
  end.

Definition py_int (v : pyval) : result Z :=
  match v with
  | PNone => Err TypeError
  | PBool b => Ok (if b then 1 else 0)
  | PInt z => Ok z
  | PFloat x => Ok (int_of_float x)
  | PStr s => int_of_string s
  end.

(** An entry of [exchange_info["symbols"]]: its name and its ["filters"]
    list ([None] when the key is missing). *)
Record symbol_info := SymbolInfo {
  si_symbol : string;
  si_filters : option (list record)
}.

Inductive OrderSide := BUY | SELL.

Definition OrderSide_value (side : OrderSide) : string :=
  match side with
  | BUY => "BUY"
  | SELL => "SELL"
  end.

(** ** The exchange client and the bot *)

(** The remote calls the bot makes, in the order it makes them. *)
Inductive remote_call :=
  | FuturesExchangeInfo
  | FuturesCreateOrder (params : record)
  | FuturesChangeLeverage (symbol : string) (leverage : Z)
  | FuturesPositionInformation.

(** The exchange client is an external collaborator: each method answers
    from the calls made so far and its arguments, with a value or an
    exception. *)
Record Client := {
  futures_exchange_info : list remote_call -> result (list symbol_info);
  futures_create_order : list remote_call -> record -> result record;
  futures_change_leverage : list remote_call -> string -> Z -> result record;
  futures_position_information : list remote_call -> result (list record)
}.

(** [self]: the client, the symbol cache, and the trace of remote calls
    (the trace is not a field of the Python object; it records what was
    sent to the exchange). *)
Record BasicBot := {
  client : Client;
  _symbol_info_cache : gmap string symbol_info;
  remote_calls : list remote_call
}.

Definition M (A : Type) : Type := BasicBot -> BasicBot * result A.

Definition ret {A} (a : A) : M A := fun b => (b, Ok a).
Definition raise {A} (e : exn) : M A := fun b => (b, Err e).
Definition lift {A} (r : result A) : M A := fun b => (b, r).
Definition bind {A B} (c : M A) (k : A -> M B) : M B :=
  fun b =>
    match c b with
    | (b', Ok a) => k a b'
    | (b', Err e) => (b', Err e)
    end.

Declare Scope bot_scope.
Delimit Scope bot_scope with bot.
Notation "x <- c ;; k" := (bind c (fun x => k))
  (at level 100, c at next level, right associativity) : bot_scope.

(** A remote call: recorded in the trace, answered by the client. *)
Definition remote {A} (c : remote_call)
    (answer : Client -> list remote_call -> result A) : M A :=
  fun b =>
    ({| client := client b;
        _symbol_info_cache := _symbol_info_cache b;
        remote_calls := remote_calls b ++ [c] |},
     answer (client b) (remote_calls b)).

Definition cache_symbol (symbol : string) (s : symbol_info) : M unit :=
  fun b =>
    ({| client := client b;
        _symbol_info_cache := <[symbol := s]> (_symbol_info_cache b);
        remote_calls := remote_calls b |},
     Ok tt).

Local Open Scope bot_scope.

(** [get_symbol_info] (bot.py 146-172). *)
Definition get_symbol_info (symbol : string) : M symbol_info :=
  fun b =>
    match _symbol_info_cache b !! symbol with
    | Some s => (b, Ok s)
    | None =>
        (exchange_info <- remote FuturesExchangeInfo futures_exchange_info ;;
         match List.find (fun s => String.eqb (si_symbol s) symbol) exchange_info with
         | Some s => _ <- cache_symbol symbol s ;; ret s
         | None => raise (ValueError ("Symbol " +:+ symbol +:+ " not found"))
         end) b
    end.

(** [float(Decimal(str(value)).quantize(Decimal(str(step)), rounding=ROUND_DOWN))]
    (bot.py 222-224, 262-264). *)
Definition quantize_to_step (value step : pyfloat) : result pyfloat :=
  (d <-? Decimal_of_string (str_float value) ;
   e <-? Decimal_of_string (str_float step) ;
   q <-? quantize_ROUND_DOWN d e ;
   Ok (float_of_Decimal q))%res.

(** The [for] loop of [_validate_quantity] (bot.py 208-228).  The local
    [precision] of line 221 is never read and its computation cannot
    raise. *)
Fixpoint _validate_quantity_loop (filters : list record) (quantity : pyfloat)
    : result (bool * string * pyfloat) :=
  match filters with
  | [] => Ok (true, "No LOT_SIZE filter found", quantity)
  | filter_item :: rest =>
      (ft <-? getitem filter_item "filterType" ;
       if eq_str ft "LOT_SIZE" then
         v <-? getitem filter_item "minQty" ;
         min_qty <-? py_float v ;
         v <-? getitem filter_item "maxQty" ;
         max_qty <-? py_float v ;
         v <-? getitem filter_item "stepSize" ;
         step_size <-? py_float v ;
         if float_lt quantity min_qty then
           Ok (false,
               "Quantity " +:+ str_float quantity +:+ " below minimum " +:+ str_float min_qty,
               quantity)
         else if float_gt quantity max_qty then
           Ok (false,
               "Quantity " +:+ str_float quantity +:+ " above maximum " +:+ str_float max_qty,
               quantity)
         else
           adjusted_qty <-? quantize_to_step quantity step_size ;
           Ok (true, "Valid", adjusted_qty)
       else _validate_quantity_loop rest quantity)%res
  end.

(** [symbol_info["filters"]]. *)
Definition get_filters (s : symbol_info) : result (list record) :=
  match si_filters s with
  | Some fs => Ok fs
  | None => Err (KeyError "filters")
  end.

(** The [try] block of [_validate_quantity]. *)
Definition _validate_quantity_try (symbol : string) (quantity : pyfloat)
    : M (bool * string * pyfloat) :=
  symbol_info <- get_symbol_info symbol ;;
  filters <- lift (get_filters symbol_info) ;;
  lift (_validate_quantity_loop filters quantity).

(** [_validate_quantity] (bot.py 194-232): [except Exception] turns every
    exception of the block into a pass-through. *)
Definition _validate_quantity (symbol : string) (quantity : pyfloat)
    : BasicBot -> BasicBot * (bool * string * pyfloat) :=
  fun b =>
    match _validate_quantity_try symbol quantity b with
    | (b', Ok r) => (b', r)
    | (b', Err e) => (b', (true, "Validation skipped", quantity))
    end.

(** The [for] loop of [_validate_price] (bot.py 248-268). *)
Fixpoint _validate_price_loop (filters : list record) (price : pyfloat)
    : result (bool * string * pyfloat) :=
  match filters with
  | [] => Ok (true, "No PRICE_FILTER found", price)
  | filter_item :: rest =>
      (ft <-? getitem filter_item "filterType" ;
       if eq_str ft "PRICE_FILTER" then
         v <-? getitem filter_item "minPrice" ;
         min_price <-? py_float v ;
         v <-? getitem filter_item "maxPrice" ;
         max_price <-? py_float v ;
         v <-? getitem filter_item "tickSize" ;
         tick_size <-? py_float v ;
         if float_lt price min_price then
           Ok (false,
               "Price " +:+ str_float price +:+ " below minimum " +:+ str_float min_price,
               price)
         else if float_gt max_price float_zero && float_gt price max_price then
           Ok (false,
               "Price " +:+ str_float price +:+ " above maximum " +:+ str_float max_price,
               price)
         else
           adjusted_price <-? quantize_to_step price tick_size ;
           Ok (true, "Valid", adjusted_price)
       else _validate_price_loop rest price)%res
  end.

Definition _validate_price_try (symbol : string) (price : pyfloat)
    : M (bool * string * pyfloat) :=
  symbol_info <- get_symbol_info symbol ;;
  filters <- lift (get_filters symbol_info) ;;
  lift (_validate_price_loop filters price).

(** [_validate_price] (bot.py 234-272). *)
Definition _validate_price (symbol : string) (price : pyfloat)
    : BasicBot -> BasicBot * (bool * string * pyfloat) :=
  fun b =>
    match _validate_price_try symbol price b with
    | (b', Ok r) => (b', r)
    | (b', Err e) => (b', (true, "Validation skipped", price))
    end.

(** Running a validator inside a bot method. *)
Definition validated (v : BasicBot -> BasicBot * (bool * string * pyfloat))
    : M (bool * string * pyfloat) :=
  fun b => let '(b', r) := v b in (b', Ok r).

(** ** The response formatter *)

Record OrderResult := {
  order_id : pyval;
  client_order_id : pyval;
  or_symbol : pyval;
  or_side : pyval;
  or_type : pyval;
  status : pyval;
  price : pyfloat;
  quantity : pyfloat;
  executed_qty : pyfloat;
  avg_price : pyfloat;
  stop_price : option pyfloat;
  time_in_force : pyval;
  reduce_only : pyval;
  close_position : pyval;
  working_type : pyval;
  update_time : pyval
}.

(** [_format_order_response] (bot.py 794-813). *)
Definition _format_order_response (order : record) : result OrderResult :=
  (price <-? py_float (get_default order "price" (PInt 0)) ;
   quantity <-? py_float (get_default order "origQty" (PInt 0)) ;
   executed_qty <-? py_float (get_default order "executedQty" (PInt 0)) ;
   avg_price <-? py_float (get_default order "avgPrice" (PInt 0)) ;
   stop_price <-?
     (if truthy (get order "stopPrice")
      then x <-? py_float (get_default order "stopPrice" (PInt 0)) ; Ok (Some x)
      else Ok None) ;
   Ok {| order_id := get order "orderId";
         client_order_id := get order "clientOrderId";
         or_symbol := get order "symbol";
         or_side := get order "side";
         or_type := get order "type";
         status := get order "status";
         price := price;
         quantity := quantity;
         executed_qty := executed_qty;
         avg_price := avg_price;
         stop_price := stop_price;
         time_in_force := get order "timeInForce";
         reduce_only := get_default order "reduceOnly" (PBool false);
         close_position := get_default order "closePosition" (PBool false);
         working_type := get order "workingType";
         update_time := get order "updateTime" |})%res.

(** The arguments of [self.logger.log_order_result(...)], evaluated after
    every submission: [order["orderId"]], [order["status"]] and two float
    conversions, each of which can raise. *)
Definition log_order_result_args (order : record) : result unit :=
  (_ <-? getitem order "orderId" ;
   _ <-? getitem order "status" ;
   _ <-? py_float (get_default order "executedQty" (PInt 0)) ;
   _ <-? py_float (get_default order "avgPrice" (PInt 0)) ;
   Ok tt)%res.

(** The call [self.client.futures_create_order] on [params], then the result logging
    and the formatter: the common tail of the five [place_*] methods. *)
Definition submit_order (params : record) : M OrderResult :=
  order <- remote (FuturesCreateOrder params)
             (fun c calls => futures_create_order c calls params) ;;
  _ <- lift (log_order_result_args order) ;;
  lift (_format_order_response order).

(** ** The order methods *)

(** [place_market_order] (bot.py 274-332). *)
Definition place_market_order (symbol : string) (side : OrderSide)
    (quantity : pyfloat) (reduce_only : bool) : M OrderResult :=
  r <- validated (_validate_quantity symbol quantity) ;;
  let '(is_valid, msg, adjusted_qty) := r in
  if negb is_valid then raise (ValueError msg)
  else
    submit_order
      (list_to_map
         [("symbol", PStr symbol);
          ("side", PStr (OrderSide_value side));
          ("type", PStr "MARKET");
          ("quantity", PFloat adjusted_qty);
          ("reduceOnly", PBool reduce_only)]).

(** [place_limit_order] (bot.py 334-405). *)
Definition place_limit_order (symbol : string) (side : OrderSide)
    (quantity price : pyfloat) (time_in_force : string) (reduce_only : bool)
    : M OrderResult :=
  r <- validated (_validate_quantity symbol quantity) ;;
  let '(is_valid, msg, adjusted_qty) := r in
  if negb is_valid then raise (ValueError msg)
  else
    r <- validated (_validate_price symbol price) ;;
    let '(is_valid, msg, adjusted_price) := r in
    if negb is_valid then raise (ValueError msg)
    else
      submit_order
        (list_to_map
           [("symbol", PStr symbol);
            ("side", PStr (OrderSide_value side));
            ("type", PStr "LIMIT");
            ("quantity", PFloat adjusted_qty);
            ("price", PFloat adjusted_price);
            ("timeInForce", PStr time_in_force);
            ("reduceOnly", PBool reduce_only)]).

(** [place_stop_limit_order] (bot.py 407-482). *)
Definition place_stop_limit_order (symbol : string) (side : OrderSide)
    (quantity price stop_price : pyfloat) (time_in_force : string)
    (reduce_only : bool) : M OrderResult :=
  r <- validated (_validate_quantity symbol quantity) ;;
  let '(is_valid, msg, adjusted_qty) := r in
  if negb is_valid then raise (ValueError msg)
  else
    r <- validated (_validate_price symbol price) ;;
    let '(is_valid, msg, adjusted_price) := r in
    if negb is_valid then raise (ValueError msg)
    else
      r <- validated (_validate_price symbol stop_price) ;;
      let '(is_valid, msg, adjusted_stop) := r in
      if negb is_valid then raise (ValueError msg)
      else
        submit_order
          (list_to_map
             [("symbol", PStr symbol);
              ("side", PStr (OrderSide_value side));
              ("type", PStr "STOP");
              ("quantity", PFloat adjusted_qty);
              ("price", PFloat adjusted_price);
              ("stopPrice", PFloat adjusted_stop);
              ("timeInForce", PStr time_in_force);
              ("reduceOnly", PBool reduce_only)]).

(** [place_stop_market_order] (bot.py 484-546). *)
Definition place_stop_market_order (symbol : string) (side : OrderSide)
    (quantity stop_price : pyfloat) (reduce_only : bool) : M OrderResult :=
  r <- validated (_validate_quantity symbol quantity) ;;
  let '(is_valid, msg, adjusted_qty) := r in
  if negb is_valid then raise (ValueError msg)
  else
    r <- validated (_validate_price symbol stop_price) ;;
    let '(is_valid, msg, adjusted_stop) := r in
    if negb is_valid then raise (ValueError msg)
    else
      submit_order
        (list_to_map
           [("symbol", PStr symbol);
            ("side", PStr (OrderSide_value side));
            ("type", PStr "STOP_MARKET");
            ("quantity", PFloat adjusted_qty);
            ("stopPrice", PFloat adjusted_stop);
            ("reduceOnly", PBool reduce_only)]).

(** [if price:] on an [Optional[float]]: [None] and zero are both false. *)
Definition price_given (price : option pyfloat) : option pyfloat :=
  match price with
  | Some p => if float_truthy p then Some p else None
  | None => None
  end.

(** [place_take_profit_order] (bot.py 548-617). *)
Definition place_take_profit_order (symbol : string) (side : OrderSide)
    (quantity stop_price : pyfloat) (price : option pyfloat)
    (reduce_only : bool) : M OrderResult :=
  r <- validated (_validate_quantity symbol quantity) ;;
  let '(is_valid, msg, adjusted_qty) := r in
  if negb is_valid then raise (ValueError msg)
  else
    r <- validated (_validate_price symbol stop_price) ;;
    let '(is_valid, msg, adjusted_stop) := r in
    if negb is_valid then raise (ValueError msg)
    else
      let params : record :=
        list_to_map
          [("symbol", PStr symbol);
           ("side", PStr (OrderSide_value side));
           ("type", PStr "TAKE_PROFIT_MARKET");
           ("quantity", PFloat adjusted_qty);
           ("stopPrice", PFloat adjusted_stop);
           ("reduceOnly", PBool reduce_only)] in
      match price_given price with
      | Some p =>
          r <- validated (_validate_price symbol p) ;;
          let '(is_valid, msg, adjusted_price) := r in
          if negb is_valid then raise (ValueError msg)
          else
            submit_order
              (<["timeInForce" := PStr "GTC"]>
                 (<["price" := PFloat adjusted_price]>
                    (<["type" := PStr "TAKE_PROFIT"]> params)))
      | None => submit_order params
      end.

(** ** Positions and leverage *)

Record Position := {
  pos_symbol : pyval;
  position_amount : pyfloat;
  entry_price : pyfloat;
  mark_price : pyfloat;
  unrealized_pnl : pyfloat;
  liquidation_price : pyfloat;
  leverage : Z;
  margin_type : pyval;
  position_side : pyval
}.

(** The dictionary appended for an active position (bot.py 743-753). *)
Definition position_of_raw (pos : record) : result Position :=
  (sym <-? getitem pos "symbol" ;
   v <-? getitem pos "positionAmt" ; amt <-? py_float v ;
   v <-? getitem pos "entryPrice" ; entry <-? py_float v ;
   v <-? getitem pos "markPrice" ; mark <-? py_float v ;
   v <-? getitem pos "unRealizedProfit" ; pnl <-? py_float v ;
   v <-? getitem pos "liquidationPrice" ; liq <-? py_float v ;
   v <-? getitem pos "leverage" ; lev <-? py_int v ;
   mt <-? getitem pos "marginType" ;
   ps <-? getitem pos "positionSide" ;
   Ok {| pos_symbol := sym;
         position_amount := amt;
         entry_price := entry;
         mark_price := mark;
         unrealized_pnl := pnl;
         liquidation_price := liq;
         leverage := lev;
         margin_type := mt;
         position_side := ps |})%res.

(** [[p for p in positions if p["symbol"] == symbol]] (bot.py 737). *)
Fixpoint filter_symbol (symbol : string) (positions : list record)
    : result (list record) :=
  match positions with
  | [] => Ok []
  | p :: rest =>
      (v <-? getitem p "symbol" ;
       rest' <-? filter_symbol symbol rest ;
       Ok (if eq_str v symbol then p :: rest' else rest'))%res
  end.

(** The loop collecting the active positions (bot.py 740-753). *)
Fixpoint active_positions_loop (positions : list record) : result (list Position) :=
  match positions with
  | [] => Ok []
  | pos :: rest =>
      (v <-? getitem pos "positionAmt" ;
       amt <-? py_float v ;
       if float_ne amt float_zero then
         p <-? position_of_raw pos ;
         rest' <-? active_positions_loop rest ;
         Ok (p :: rest')
       else active_positions_loop rest)%res
  end.

(** [get_positions] (bot.py 721-760); [if symbol:] is false for [None] and
    for the empty string. *)
Definition get_positions (symbol : option string) : M (list Position) :=
  positions <- remote FuturesPositionInformation futures_position_information ;;
  positions <-
    match symbol with
    | Some s => if String.eqb s "" then ret positions
                else lift (filter_symbol s positions)
    | None => ret positions
    end ;;
  lift (active_positions_loop positions).

(** [set_leverage] (bot.py 762-792). *)
Definition set_leverage (symbol : string) (leverage : Z) : M record :=
  if (leverage <? 1) || (125 <? leverage)
  then raise (ValueError "Leverage must be between 1 and 125")
  else
    remote (FuturesChangeLeverage symbol leverage)
      (fun c calls => futures_change_leverage c calls symbol leverage).

(** ** Vocabulary of the statements *)

(** Digit strings, for the correspondence between [str] and [Decimal]. *)
Fixpoint all_digits (s : string) : bool :=
  match s with
  | EmptyString => true
  | String c s' =>
      match digit_of_ascii c with
      | Some _ => all_digits s'
      | None => false
      end
  end.

Fixpoint sval (s : string) (acc : N) : N :=
  match s with
  | EmptyString => acc
  | String c s' =>
      match digit_of_ascii c with
      | Some d => sval s' (acc * 10 + d)%N
      | None => acc
      end
  end.

Definition stops (s : string) : Prop :=
  match s with
  | EmptyString => True
  | String c _ => digit_of_ascii c = None
  end.

Fixpoint uval (d : Decimal.uint) (acc : N) : N :=
  match d with
  | Decimal.Nil => acc
  | Decimal.D0 l => uval l (acc * 10)
  | Decimal.D1 l => uval l (acc * 10 + 1)
  | Decimal.D2 l => uval l (acc * 10 + 2)
  | Decimal.D3 l => uval l (acc * 10 + 3)
  | Decimal.D4 l => uval l (acc * 10 + 4)
  | Decimal.D5 l => uval l (acc * 10 + 5)
  | Decimal.D6 l => uval l (acc * 10 + 6)
  | Decimal.D7 l => uval l (acc * 10 + 7)
  | Decimal.D8 l => uval l (acc * 10 + 8)
  | Decimal.D9 l => uval l (acc * 10 + 9)
  end%N.

(** The float in the form [str] prints it: no trailing zero in the digits. *)
Definition float_norm (x : pyfloat) : pyfloat := mkfloat (f_sign x) (f_man x) (f_exp x).
Definition canonical (x : pyfloat) : Prop := float_norm x = x.

(** Order and equality of floats as propositions. *)
Definition flt (x y : pyfloat) : Prop := (float_val x < float_val y)%Q.
Definition feq (x y : pyfloat) : Prop := (float_val x == float_val y)%Q.

(** [x] is an integer multiple of [step]. *)
Definition multiple_of (step x : pyfloat) : Prop :=
  exists k : Z, (float_val x == inject_Z k * float_val step)%Q.

(** The filters the bot sees for a symbol: from the cache, or from the
    exchange on a first lookup. *)
Definition known_filters (symbol : string) (b : BasicBot) : option (list record) :=
  match get_symbol_info symbol b with
  | (_, Ok info) => si_filters info
  | (_, Err _) => None
  end.

(** The filter item the loops stop at: the first item of the type, every
    item before it carrying a ["filterType"]. *)
Fixpoint find_filter (ftype : string) (filters : list record) : option record :=
  match filters with
  | [] => None
  | f :: rest =>
      match f !! "filterType" with
      | Some ft => if eq_str ft ftype then Some f else find_filter ftype rest
      | None => None
      end
  end.

Definition float_field (f : record) (k : string) : option pyfloat :=
  match f !! k with
  | Some v => match py_float v with Ok x => Some x | Err _ => None end
  | None => None
  end.

(** The rule [(min, max, step)] a filter list holds for quantities and for
    prices, when the three fields are present and convert. *)
Definition rule_of (ftype kmin kmax kstep : string) (filters : list record)
    : option (pyfloat * pyfloat * pyfloat) :=
  match find_filter ftype filters with
  | Some f =>
      match float_field f kmin, float_field f kmax, float_field f kstep with
      | Some mn, Some mx, Some st => Some (mn, mx, st)
      | _, _, _ => None
      end
  | None => None
  end.

Definition lot_size_rule := rule_of "LOT_SIZE" "minQty" "maxQty" "stepSize".
Definition price_rule := rule_of "PRICE_FILTER" "minPrice" "maxPrice" "tickSize".

(** No item of the list is of the given filter type. *)
Definition lacks_filter (ftype : string) (filters : list record) : Prop :=
  Forall (fun f => forall ft, f !! "filterType" = Some ft -> eq_str ft ftype = false) filters.

(** The remote calls made between two states, and the orders among them. *)
Definition new_calls (b b' : BasicBot) : list remote_call :=
  drop (length (remote_calls b)) (remote_calls b').

Definition order_of (c : remote_call) : option record :=
  match c with
  | FuturesCreateOrder params => Some params
  | _ => None
  end.

Definition orders_sent (b b' : BasicBot) : list record :=
  omap order_of (new_calls b b').

(** What the loop of [_validate_quantity] returns once it has read the rule
    [(mn, mx, st)], and likewise for [_validate_price]. *)
Definition quantity_outcome (mn mx st q : pyfloat) : result (bool * string * pyfloat) :=
  if float_lt q mn then
    Ok (false, "Quantity " +:+ str_float q +:+ " below minimum " +:+ str_float mn, q)
  else if float_gt q mx then
    Ok (false, "Quantity " +:+ str_float q +:+ " above maximum " +:+ str_float mx, q)
  else rbind (quantize_to_step q st) (fun adj => Ok (true, "Valid", adj)).

Definition price_outcome (mn mx st p : pyfloat) : result (bool * string * pyfloat) :=
  if float_lt p mn then
    Ok (false, "Price " +:+ str_float p +:+ " below minimum " +:+ str_float mn, p)
  else if float_gt mx float_zero && float_gt p mx then
    Ok (false, "Price " +:+ str_float p +:+ " above maximum " +:+ str_float mx, p)
  else rbind (quantize_to_step p st) (fun adj => Ok (true, "Valid", adj)).

(** The [except Exception] clause applied to the outcome of a loop. *)
Definition or_skip (raw : pyfloat) (r : result (bool * string * pyfloat))
    : bool * string * pyfloat :=
  match r with
  | Ok t => t
  | Err _ => (true, "Validation skipped", raw)
  end.



(** [b'] is reached from [b] by the remote calls [l]. *)
Definition steps (b b' : BasicBot) (l : list remote_call) : Prop :=
  remote_calls b' = remote_calls b ++ l.



(** [float(pos["positionAmt"]) != 0], false where the conversion raises. *)
Definition amount_nonzero (pos : record) : bool :=
  match rbind (getitem pos "positionAmt") py_float with
  | Ok amt => float_ne amt float_zero
  | Err _ => false
  end.

(** [p] is the entry [get_positions] builds for the raw record [pos]. *)
Definition converts (pos : record) (p : Position) : Prop := position_of_raw pos = Ok p.

(** The records [get_positions] looks at: all of them, or those of the
    symbol when one is given. *)
Definition selected (symbol : option string) (positions : list record) : list record :=
  match symbol with
  | Some s =>
      if String.eqb s "" then positions
      else List.filter (fun p => eq_str (get p "symbol") s) positions
  | None => positions
  end.

(** ** Fixtures for the examples *)

(** The float a numeral denotes. *)
Definition fl (s : string) : pyfloat :=
  match float_of_string s with
  | Ok x => x
  | Err _ => float_zero
  end.

Definition lot_size_filter (mn mx st : string) : record :=
  list_to_map [("filterType", PStr "LOT_SIZE"); ("minQty", PStr mn);
               ("maxQty", PStr mx); ("stepSize", PStr st)].

Definition price_filter (mn mx st : string) : record :=
  list_to_map [("filterType", PStr "PRICE_FILTER"); ("minPrice", PStr mn);
               ("maxPrice", PStr mx); ("tickSize", PStr st)].

(** A cooperative exchange: it knows the given symbols and positions,
    accepts every order and echoes it back with an id and a status. *)
Definition echo_client (symbols : list symbol_info) (positions : list record) : Client :=
  {| futures_exchange_info := fun _ => Ok symbols;
     futures_create_order := fun _ params =>
       Ok (<["orderId" := PInt 1]> (<["status" := PStr "NEW"]> params));
     futures_change_leverage := fun _ s l =>
       Ok (list_to_map [("symbol", PStr s); ("leverage", PInt l)]);
     futures_position_information := fun _ => Ok positions |}.

Definition new_bot (c : Client) : BasicBot :=
  {| client := c; _symbol_info_cache := ∅; remote_calls := [] |}.

(** A fresh bot on an exchange with five symbols: the two of the spec's
    examples, one whose rules have the minimum above the maximum, one without
    filters, and one whose filter list starts with an item that has no
    ["filterType"]. *)
Definition btc_bot : BasicBot :=
  new_bot (echo_client
    [SymbolInfo "BTCUSDT"
       (Some [price_filter "100" "0" "0.1"; lot_size_filter "0.001" "1000" "0.001"]);
     SymbolInfo "DOGEUSDT"
       (Some [price_filter "0.5" "2000" "0.5"; lot_size_filter "1" "1000" "1"]);
     SymbolInfo "ODDUSDT"
       (Some [price_filter "10" "5" "1"; lot_size_filter "10" "5" "1"]);
     SymbolInfo "NEWUSDT" (Some []);
     SymbolInfo "BADUSDT"
       (Some [list_to_map [("maxNumOrders", PStr "200")];
              lot_size_filter "0.001" "1000" "0.001"])] []).

Definition raw_position (symbol amt : string) : record :=
  list_to_map
    [("symbol", PStr symbol); ("positionAmt", PStr amt); ("entryPrice", PStr "100.5");
     ("markPrice", PStr "101"); ("unRealizedProfit", PStr "-0.25");
     ("liquidationPrice", PStr "0"); ("leverage", PStr "20");
     ("marginType", PStr "cross"); ("positionSide", PStr "BOTH")].

Definition positions_bot : BasicBot :=
  new_bot (echo_client [] [raw_position "BTCUSDT" "0"; raw_position "ETHUSDT" "-0.5"]).

Definition stop_limit_example : record :=
  list_to_map
    [("symbol", PStr "BTCUSDT"); ("side", PStr "BUY"); ("type", PStr "STOP");
     ("quantity", PFloat (fl "0.001")); ("price", PFloat (fl "123.4"));
     ("stopPrice", PFloat (fl "130")); ("timeInForce", PStr "GTC");
     ("reduceOnly", PBool false)].



(** ** Further operations, and the vocabulary of their properties *)

(** [b'] has the client of [b], at least its cache, and a longer trace. *)
Definition grows (b b' : BasicBot) : Prop :=
  client b' = client b /\
  _symbol_info_cache b ⊆ _symbol_info_cache b' /\
  exists l, remote_calls b' = remote_calls b ++ l.

(** Every cache entry is filed under its own symbol. *)
Definition cache_named (b : BasicBot) : Prop :=
  forall k s, _symbol_info_cache b !! k = Some s -> si_symbol s = k.

(** A call of one of the five order methods, with its arguments. *)
Inductive order_request :=
  | MarketOrder (symbol : string) (side : OrderSide) (quantity : pyfloat) (reduce_only : bool)
  | LimitOrder (symbol : string) (side : OrderSide) (quantity price : pyfloat)
      (time_in_force : string) (reduce_only : bool)
  | StopLimitOrder (symbol : string) (side : OrderSide) (quantity price stop_price : pyfloat)
      (time_in_force : string) (reduce_only : bool)
  | StopMarketOrder (symbol : string) (side : OrderSide) (quantity stop_price : pyfloat)
      (reduce_only : bool)
  | TakeProfitOrder (symbol : string) (side : OrderSide) (quantity stop_price : pyfloat)
      (price : option pyfloat) (reduce_only : bool).

Definition place (r : order_request) : M OrderResult :=
  match r with
  | MarketOrder symbol side q ro => place_market_order symbol side q ro
  | LimitOrder symbol side q p tif ro => place_limit_order symbol side q p tif ro
  | StopLimitOrder symbol side q p sp tif ro =>
      place_stop_limit_order symbol side q p sp tif ro
  | StopMarketOrder symbol side q sp ro => place_stop_market_order symbol side q sp ro
  | TakeProfitOrder symbol side q sp price ro =>
      place_take_profit_order symbol side q sp price ro
  end.

Definition request_symbol (r : order_request) : string :=
  match r with
  | MarketOrder symbol _ _ _ | LimitOrder symbol _ _ _ _ _
  | StopLimitOrder symbol _ _ _ _ _ _ | StopMarketOrder symbol _ _ _ _
  | TakeProfitOrder symbol _ _ _ _ _ => symbol
  end.

Definition request_side (r : order_request) : OrderSide :=
  match r with
  | MarketOrder _ side _ _ | LimitOrder _ side _ _ _ _
  | StopLimitOrder _ side _ _ _ _ _ | StopMarketOrder _ side _ _ _
  | TakeProfitOrder _ side _ _ _ _ => side
  end.

Definition request_reduce_only (r : order_request) : bool :=
  match r with
  | MarketOrder _ _ _ ro | LimitOrder _ _ _ _ _ ro
  | StopLimitOrder _ _ _ _ _ _ ro | StopMarketOrder _ _ _ _ ro
  | TakeProfitOrder _ _ _ _ _ ro => ro
  end.

(** The [type] each method sends. *)
Definition request_type (r : order_request) : string :=
  match r with
  | MarketOrder _ _ _ _ => "MARKET"
  | LimitOrder _ _ _ _ _ _ => "LIMIT"
  | StopLimitOrder _ _ _ _ _ _ _ => "STOP"
  | StopMarketOrder _ _ _ _ _ => "STOP_MARKET"
  | TakeProfitOrder _ _ _ _ price _ =>
      match price_given price with
      | Some _ => "TAKE_PROFIT"
      | None => "TAKE_PROFIT_MARKET"
      end
  end.

(** The [timeInForce] each method sends, if any. *)
Definition request_time_in_force (r : order_request) : option string :=
  match r with
  | LimitOrder _ _ _ _ tif _ | StopLimitOrder _ _ _ _ _ tif _ => Some tif
  | TakeProfitOrder _ _ _ _ price _ =>
      match price_given price with
      | Some _ => Some "GTC"
      | None => None
      end
  | _ => None
  end.

(** One call of a validator. *)
Inductive check :=
  | CheckQuantity (quantity : pyfloat)
  | CheckPrice (price : pyfloat).

Definition run_check (symbol : string) (c : check)
    : BasicBot -> BasicBot * (bool * string * pyfloat) :=
  match c with
  | CheckQuantity q => _validate_quantity symbol q
  | CheckPrice p => _validate_price symbol p
  end.

(** The validator calls of each method, in the order the method makes
    them. *)
Definition checks (r : order_request) : list check :=
  match r with
  | MarketOrder _ _ q _ => [CheckQuantity q]
  | LimitOrder _ _ q p _ _ => [CheckQuantity q; CheckPrice p]
  | StopLimitOrder _ _ q p sp _ _ => [CheckQuantity q; CheckPrice p; CheckPrice sp]
  | StopMarketOrder _ _ q sp _ => [CheckQuantity q; CheckPrice sp]
  | TakeProfitOrder _ _ q sp price _ =>
      CheckQuantity q :: CheckPrice sp ::
      match price_given price with
      | Some p => [CheckPrice p]
      | None => []
      end
  end.

(** Validator calls made one after the other until one refuses: the
    message of the refusal, or the adjusted values. *)
Fixpoint run_checks (symbol : string) (cs : list check) (b : BasicBot)
    : BasicBot * (string + list pyfloat) :=
  match cs with
  | [] => (b, inr [])
  | c :: rest =>
      match run_check symbol c b with
      | (b1, (true, _, adj)) =>
          match run_checks symbol rest b1 with
          | (b2, inr adjs) => (b2, inr (adj :: adjs))
          | (b2, inl msg) => (b2, inl msg)
          end
      | (b1, (false, msg, _)) => (b1, inl msg)
      end
  end.

(** The names of the fields the adjusted values of [checks] go to. *)
Definition checked_fields (r : order_request) : list string :=
  match r with
  | MarketOrder _ _ _ _ => ["quantity"]
  | LimitOrder _ _ _ _ _ _ => ["quantity"; "price"]
  | StopLimitOrder _ _ _ _ _ _ _ => ["quantity"; "price"; "stopPrice"]
  | StopMarketOrder _ _ _ _ _ => ["quantity"; "stopPrice"]
  | TakeProfitOrder _ _ _ _ price _ =>
      "quantity" :: "stopPrice" ::
      match price_given price with
      | Some _ => ["price"]
      | None => []
      end
  end.

(** The request a method builds from the adjusted values. *)
Definition request_params (r : order_request) (adjs : list pyfloat) : record :=
  let fixed : record :=
    list_to_map
      [("symbol", PStr (request_symbol r));
       ("side", PStr (OrderSide_value (request_side r)));
       ("type", PStr (request_type r));
       ("reduceOnly", PBool (request_reduce_only r))] in
  let timed : record :=
    match request_time_in_force r with
    | Some tif => <["timeInForce" := PStr tif]> fixed
    | None => fixed
    end in
  foldr (fun kv m => <[kv.1 := PFloat kv.2]> m) timed (zip (checked_fields r) adjs).

(** What a method returns once the request has been sent. *)
Definition answer_result (answer : result record) : result OrderResult :=
  rbind answer (fun order =>
    rbind (log_order_result_args order) (fun _ => _format_order_response order)).

(** [b'] is reached from [b] by metadata fetches only. *)
Definition fetches_only (b b' : BasicBot) : Prop :=
  exists l, remote_calls b' = remote_calls b ++ l /\ Forall (eq FuturesExchangeInfo) l.

(** The value a validator returns for an in-bounds value: the result of the
    conversion chain, or the value itself when the chain raises. *)
Definition adjusted_of (v st : pyfloat) : pyfloat :=
  match quantize_to_step v st with
  | Ok adj => adj
  | Err _ => v
  end.

(** The exponent of the step as [str] prints it: the number of decimals the
    conversion chain keeps. *)
Definition step_exponent (st : pyfloat) : Z := d_exp (Decimal_of_str_float st).

(** [x] has no digit below [10^t]. *)
Definition on_grid (t : Z) (x : pyfloat) : Prop :=
  exists k : Z, (float_val x == inject_Z k * pow10 t)%Q.

(** ** Balances and open orders *)

(** The dictionary [get_balance] returns (bot.py 132-137, 142). *)
Record Balance := {
  bal_asset : string;
  balance : pyfloat;
  available : pyfloat;
  cross_wallet : pyfloat
}.

Definition zero_balance (asset : string) : Balance :=
  {| bal_asset := asset; balance := float_zero; available := float_zero;
     cross_wallet := float_zero |}.

(** The dictionary built for the entry of the asset (bot.py 132-137). *)
Definition balance_of_raw (asset : string) (entry : record) : result Balance :=
  (v <-? getitem entry "balance" ; bal <-? py_float v ;
   v <-? getitem entry "availableBalance" ; av <-? py_float v ;
   cw <-? py_float (get_default entry "crossWalletBalance" (PInt 0)) ;
   Ok {| bal_asset := asset; balance := bal; available := av; cross_wallet := cw |})%res.

(** The loop over the balances (bot.py 130-142): it returns from inside at
    the first entry of the asset, and falls through to the zero balance. *)
Fixpoint get_balance_loop (asset : string) (balances : list record) : result Balance :=
  match balances with
  | [] => Ok (zero_balance asset)
  | entry :: rest =>
      (v <-? getitem entry "asset" ;
       if eq_str v asset then balance_of_raw asset entry
       else get_balance_loop asset rest)%res
  end.

(** [get_balance] (bot.py 115-144), as a function of what
    [self.client.futures_account_balance()] answers: an exception of the call
    propagates. *)
Definition get_balance (asset : string) (answer : result (list record))
    : result Balance :=
  rbind answer (get_balance_loop asset).

(** [[self._format_order_response(o) for o in orders]] (bot.py 690). *)
Fixpoint format_orders (orders : list record) : result (list OrderResult) :=
  match orders with
  | [] => Ok []
  | o :: rest =>
      (r <-? _format_order_response o ;
       rs <-? format_orders rest ;
       Ok (r :: rs))%res
  end.

(** [get_open_orders] (bot.py 670-694), as a function of what
    [self.client.futures_get_open_orders(...)] answers. *)
Definition get_open_orders (answer : result (list record))
    : result (list OrderResult) :=
  rbind answer format_orders.

(** An entry of another asset, and an entry of the asset. *)
Definition entry_of_other (asset : string) (entry : record) : Prop :=
  exists v, entry !! "asset" = Some v /\ eq_str v asset = false.

Definition entry_of (asset : string) (entry : record) : Prop :=
  exists v, entry !! "asset" = Some v /\ eq_str v asset = true.


(** The value a validator call is made on. *)
Definition check_value (c : check) : pyfloat :=
  match c with
  | CheckQuantity q => q
  | CheckPrice p => p
  end.

(** The symbol is not cached, and the exchange does not provide it: its
    metadata call raises, or answers without the symbol. *)
Definition lookup_fails (symbol : string) (b : BasicBot) : Prop :=
  _symbol_info_cache b !! symbol = None /\
  forall calls,
    match futures_exchange_info (client b) calls with
    | Ok symbols => Forall (fun s => si_symbol s <> symbol) symbols
    | Err _ => True
    end.

(** The entry of BTCUSDT in the metadata of [btc_bot]. *)
Definition btc_info : symbol_info :=
  SymbolInfo "BTCUSDT"
    (Some [price_filter "100" "0" "0.1"; lot_size_filter "0.001" "1000" "0.001"]).

(** An exchange as that of [btc_bot], but whose answer to an order is the
    order itself: no ["orderId"], no ["status"]. *)
Definition mute_bot : BasicBot :=
  new_bot {| futures_exchange_info := futures_exchange_info (client btc_bot);
             futures_create_order := fun _ params => Ok params;
             futures_change_leverage := futures_change_leverage (client btc_bot);
             futures_position_information :=
               futures_position_information (client btc_bot) |}.

Definition raw_balance (asset bal : string) : record :=
  list_to_map [("asset", PStr asset); ("balance", PStr bal);
               ("availableBalance", PStr bal)].

(** An order as the exchange lists it, with a null price. *)
Definition null_price_order : record :=
  list_to_map [("orderId", PInt 7); ("status", PStr "NEW"); ("price", PNone)].

(** * Lemmas *)

(** ** Powers of ten and scaled integers *)

Lemma ten_neq0 : ~ (inject_Z 10 == 0)%Q.
Proof. intros H. discriminate H. Qed.

Lemma pow10_pos e : (0 < pow10 e)%Q.
Proof. unfold pow10. apply Qpower_0_lt. reflexivity. Qed.

Lemma pow10_neq0 e : ~ (pow10 e == 0)%Q.
Proof. intros H. pose proof (pow10_pos e) as P. rewrite H in P. discriminate P. Qed.

Lemma pow10_add a b : (pow10 (a + b) == pow10 a * pow10 b)%Q.
Proof. unfold pow10. apply Qpower_plus, ten_neq0. Qed.

Lemma pow10_of_nonneg k : 0 <= k -> (pow10 k == inject_Z (10 ^ k))%Q.
Proof. intros H. unfold pow10. symmetry. now apply Zpower_Qpower. Qed.

(** [pow10 t = 10^(t-e) * pow10 e] for [e <= t]. *)
Lemma pow10_split e t : e <= t -> (pow10 t == inject_Z (10 ^ (t - e)) * pow10 e)%Q.
Proof.
  intros H. replace t with ((t - e) + e) at 1 by lia.
  rewrite pow10_add, pow10_of_nonneg by lia. reflexivity.
Qed.

(** Scaled integers: [a * 10^e] and [b * 10^t] compared at the lower exponent. *)
Lemma scaled_eq a b e t :
  e <= t ->
  (inject_Z a * pow10 e == inject_Z b * pow10 t)%Q <-> a = b * 10 ^ (t - e).
Proof.
  intros H. rewrite (pow10_split e t H), Qmult_assoc, <- inject_Z_mult.
  rewrite Qmult_inj_r by apply pow10_neq0. apply inject_Z_injective.
Qed.

Lemma scaled_le a b e t :
  e <= t ->
  (inject_Z a * pow10 e <= inject_Z b * pow10 t)%Q <-> a <= b * 10 ^ (t - e).
Proof.
  intros H. rewrite (pow10_split e t H), Qmult_assoc, <- inject_Z_mult.
  rewrite Qmult_le_r by apply pow10_pos. now rewrite <- Zle_Qle.
Qed.

Lemma scaled_lt a b e t :
  e <= t ->
  (inject_Z a * pow10 e < inject_Z b * pow10 t)%Q <-> a < b * 10 ^ (t - e).
Proof.
  intros H. rewrite (pow10_split e t H), Qmult_assoc, <- inject_Z_mult.
  rewrite Qmult_lt_r by apply pow10_pos. now rewrite <- Zlt_Qlt.
Qed.

Lemma signed_mul s m k : signed s (m * k) = signed s m * Z.of_N k.
Proof. unfold signed. destruct s; lia. Qed.

Lemma of_N_pow10 k : Z.of_N (10 ^ k) = 10 ^ Z.of_N k.
Proof. now rewrite N2Z.inj_pow. Qed.

(** [strip_zeros] moves a power of ten from the digits to the exponent. *)
Lemma strip_zeros_spec fuel m e m' e' :
  strip_zeros fuel m e = (m', e') ->
  e <= e' /\ Z.of_N m = Z.of_N m' * 10 ^ (e' - e).
Proof.
  revert m e. induction fuel as [|fuel IH]; intros m e; simpl.
  - intros [= <- <-]. rewrite Z.sub_diag. lia.
  - destruct (N.eqb_spec (m mod 10) 0) as [Hm|Hm].
    + intros H. apply IH in H as [Hle Heq]. split; [lia|].
      replace (e' - e) with (1 + (e' - (e + 1))) by lia.
      rewrite Z.pow_add_r by lia.
      pose proof (N.div_mod m 10 ltac:(lia)) as D. rewrite Hm in D.
      assert (Z.of_N m = 10 * Z.of_N (m / 10)) by lia. lia.
    + intros [= <- <-]. rewrite Z.sub_diag. lia.
Qed.

Lemma normalize_spec m e m' e' :
  normalize m e = (m', e') ->
  (m = 0%N /\ m' = 0%N) \/ (e <= e' /\ Z.of_N m = Z.of_N m' * 10 ^ (e' - e)).
Proof.
  unfold normalize. destruct (N.eqb_spec m 0).
  - intros [= <- <-]. now left.
  - intros H. right. eapply strip_zeros_spec, H.
Qed.

Lemma signed_zero s : signed s 0 = 0.
Proof. now destruct s. Qed.

Lemma normalize_val s m e m' e' :
  normalize m e = (m', e') ->
  (inject_Z (signed s m') * pow10 e' == inject_Z (signed s m) * pow10 e)%Q.
Proof.
  intros H. apply normalize_spec in H as [[-> ->]|[Hle Heq]].
  - rewrite signed_zero. now rewrite !Qmult_0_l.
  - symmetry. apply scaled_eq; [exact Hle|].
    unfold signed. destruct s; lia.
Qed.

Lemma mkfloat_val s m e :
  (float_val (mkfloat s m e) == inject_Z (signed s m) * pow10 e)%Q.
Proof.
  unfold mkfloat. destruct (normalize m e) as [m' e'] eqn:H.
  unfold float_val; simpl. now apply normalize_val.
Qed.

Lemma float_of_Decimal_val d : (float_val (float_of_Decimal d) == Decimal_val d)%Q.
Proof. apply mkfloat_val. Qed.

(** The exponent of [Decimal(str(x))] is the float's normal exponent, or
    [-1] for a whole number printed with [".0"]. *)
Lemma Decimal_of_str_float_spec x :
  let d := Decimal_of_str_float x in
  d_sign d = f_sign x /\
  (Decimal_val d == float_val x)%Q /\
  exists m e, normalize (f_man x) (f_exp x) = (m, e) /\
    (d_exp d = e \/ (0 <= e /\ d_exp d = -1)).
Proof.
  unfold Decimal_of_str_float.
  destruct (normalize (f_man x) (f_exp x)) as [m e] eqn:H.
  pose proof (normalize_val (f_sign x) _ _ _ _ H) as V.
  destruct ((ndigits m + e <=? -4) || (16 <? ndigits m + e) || (e <? 0)) eqn:C;
    cbn [d_sign d_int d_exp]; unfold Decimal_val; cbn [d_sign d_int d_exp].
  - split; [reflexivity|]. split; [exact V|]. exists m, e. auto.
  - split; [reflexivity|].
    apply orb_false_iff in C as [_ C]. apply Z.ltb_ge in C.
    split.
    + rewrite <- V. apply scaled_eq; [lia|].
      rewrite signed_mul, of_N_pow10, Z2N.id by lia.
      f_equal; f_equal; lia.
    + exists m, e. split; [reflexivity|]. right. lia.
Qed.

(** What [quantize] returns: the sign is kept, the exponent is the one of
    the second operand, and the coefficient is padded or truncated. *)
Lemma quantize_ROUND_DOWN_Ok d e q :
  quantize_ROUND_DOWN d e = Ok q -> q = rescale_down d (d_exp e).
Proof.
  unfold quantize_ROUND_DOWN.
  destruct (negb _); [discriminate|].
  destruct (N.eqb_spec (d_int d) 0) as [Hz|Hz].
  - intros [= <-]. unfold rescale_down. now rewrite Hz.
  - destruct (Emax <? adjusted d); [discriminate|].
    destruct (prec <? _); [discriminate|].
    cbv zeta. destruct (Emax <? _); [discriminate|].
    destruct (prec <? _); [discriminate|]. now intros [= <-].
Qed.

Lemma pow10_Zpos k : 0 < 10 ^ Z.of_N k.
Proof. apply Z.pow_pos_nonneg; lia. Qed.

Lemma N_div_exact_signed s c j k :
  signed s c = k * Z.of_N (10 ^ j) ->
  Z.of_N (c / 10 ^ j) * Z.of_N (10 ^ j) = Z.of_N c.
Proof.
  intros H. rewrite N2Z.inj_div.
  assert (P : 0 < Z.of_N (10 ^ j)) by (rewrite of_N_pow10; apply pow10_Zpos).
  unfold signed in H.
  revert H P. generalize (Z.of_N (10 ^ j)) as p. generalize (Z.of_N c) as z.
  intros z p H P.
  assert (E : z = (if s then - k else k) * p) by (destruct s; lia).
  rewrite E, Z.div_mul; lia.
Qed.

(** A value on the grid [10^t] is left alone by the rescaling. *)
Lemma rescale_down_exact d t (k : Z) :
  (Decimal_val d == inject_Z k * pow10 t)%Q ->
  (Decimal_val (rescale_down d t) == Decimal_val d)%Q.
Proof.
  intros H. unfold rescale_down.
  destruct (N.eqb_spec (d_int d) 0) as [Hz|Hz].
  - unfold Decimal_val; cbn [d_sign d_int d_exp]. rewrite Hz, signed_zero.
    now rewrite !Qmult_0_l.
  - destruct (Z.leb_spec t (d_exp d)) as [Hle|Hlt];
      unfold Decimal_val; cbn [d_sign d_int d_exp].
    + apply scaled_eq; [exact Hle|].
      rewrite signed_mul, of_N_pow10, Z2N.id by lia. reflexivity.
    + symmetry. apply scaled_eq; [lia|].
      unfold Decimal_val in H. apply scaled_eq in H; [|lia].
      rewrite <- (Z2N.id (t - d_exp d)) in * by lia.
      rewrite <- of_N_pow10 in *.
      apply N_div_exact_signed in H.
      rewrite N2Z.id in *.
      unfold signed. destruct (d_sign d); lia.
Qed.

(** ** [Decimal(str(x))]: reading back what [str] prints *)

Lemma read_digits_stops s acc cnt : stops s -> read_digits s acc cnt = (acc, cnt, s).
Proof. destruct s as [|c s]; simpl; [reflexivity|]. now intros ->. Qed.

Lemma read_digits_app s1 s2 acc cnt :
  all_digits s1 = true ->
  read_digits (s1 +:+ s2) acc cnt = read_digits s2 (sval s1 acc) (cnt + String.length s1)%nat.
Proof.
  revert acc cnt. induction s1 as [|c s1 IH]; intros acc cnt; simpl.
  - intros _. now rewrite Nat.add_0_r.
  - destruct (digit_of_ascii c); [|discriminate].
    intros H. rewrite IH by exact H. f_equal. lia.
Qed.

Lemma read_digits_all s acc cnt :
  all_digits s = true ->
  read_digits s acc cnt = (sval s acc, (cnt + String.length s)%nat, EmptyString).
Proof.
  intros H. revert acc cnt. induction s as [|c s IH]; intros acc cnt; simpl in *.
  - now rewrite Nat.add_0_r.
  - destruct (digit_of_ascii c); [|discriminate]. rewrite IH by exact H. do 2 f_equal. lia.
Qed.

Lemma all_digits_app s1 s2 :
  all_digits (s1 +:+ s2) = all_digits s1 && all_digits s2.
Proof.
  induction s1 as [|c s1 IH]; simpl; [reflexivity|].
  now destruct (digit_of_ascii c).
Qed.

Lemma sval_app s1 s2 acc :
  all_digits s1 = true -> sval (s1 +:+ s2) acc = sval s2 (sval s1 acc).
Proof.
  revert acc. induction s1 as [|c s1 IH]; intros acc; simpl; [reflexivity|].
  destruct (digit_of_ascii c); [|discriminate]. apply IH.
Qed.

Lemma slength_app s1 s2 :
  String.length (s1 +:+ s2) = (String.length s1 + String.length s2)%nat.
Proof. induction s1 as [|c s1 IH]; simpl; [reflexivity|]. now rewrite IH. Qed.

Lemma all_digits_zeros k : all_digits (zeros k) = true.
Proof. induction k; simpl; auto. Qed.

Lemma length_zeros k : String.length (zeros k) = k.
Proof. induction k; simpl; congruence. Qed.

Lemma sval_zeros k acc : sval (zeros k) acc = (acc * 10 ^ N.of_nat k)%N.
Proof.
  revert acc. induction k as [|k IH]; intros acc.
  - simpl. lia.
  - change (sval (zeros (S k)) acc) with (sval (zeros k) (acc * 10 + 0)%N).
    rewrite IH, Nat2N.inj_succ, N.pow_succ_r'. lia.
Qed.

Lemma sapp_cons c s1 s2 : String c s1 +:+ s2 = String c (s1 +:+ s2).
Proof. reflexivity. Qed.

Lemma sapp_nil s : "" +:+ s = s.
Proof. reflexivity. Qed.

Lemma substring_0_all s : substring 0 (String.length s) s = s.
Proof. induction s as [|c s IH]; simpl; [reflexivity|]. now rewrite IH. Qed.

(** Splitting a string at position [k]. *)
Lemma substring_split s k :
  (k <= String.length s)%nat ->
  s = substring 0 k s +:+ substring k (String.length s - k) s /\
  String.length (substring 0 k s) = k.
Proof.
  revert s. induction k as [|k IH]; intros s Hk.
  - rewrite Nat.sub_0_r, substring_0_all. destruct s; simpl; auto.
  - destruct s as [|c s]; simpl in Hk; [lia|].
    destruct (IH s ltac:(lia)) as [E L].
    change (substring 0 (S k) (String c s)) with (String c (substring 0 k s)).
    change (substring (S k) (String.length (String c s) - S k) (String c s))
      with (substring k (String.length s - k) s).
    rewrite sapp_cons. simpl. split; [now f_equal|now f_equal].
Qed.

Lemma all_digits_string_of_uint d : all_digits (NilEmpty.string_of_uint d) = true.
Proof. induction d; simpl; auto. Qed.

Lemma sval_string_of_uint d acc : sval (NilEmpty.string_of_uint d) acc = uval d acc.
Proof.
  revert acc. induction d; intros acc; simpl; try reflexivity;
    rewrite IHd; f_equal; lia.
Qed.

Lemma length_string_of_uint d :
  String.length (NilEmpty.string_of_uint d) = Decimal.nb_digits d.
Proof. induction d; simpl; congruence. Qed.

Lemma uval_pos d p : uval d (Npos p) = Npos (Pos.of_uint_acc d p).
Proof.
  revert p. induction d; intros p; simpl; try reflexivity;
    rewrite <- IHd; f_equal; lia.
Qed.

Lemma uval_0 d : uval d 0 = N.of_uint d.
Proof.
  unfold N.of_uint. induction d; simpl; try reflexivity;
    try (change (0 * 10 + _)%N with (Npos 1); apply uval_pos);
    try apply uval_pos.
  exact IHd.
Qed.

Lemma digits_of_N_spec m :
  let ds := digits_of_N m in
  all_digits ds = true /\ sval ds 0 = m /\
  Z.of_nat (String.length ds) = ndigits m /\
  exists c ds', ds = String c ds'.
Proof.
  unfold digits_of_N, ndigits. cbv zeta.
  split; [apply all_digits_string_of_uint|].
  split; [rewrite sval_string_of_uint, uval_0; apply DecimalN.Unsigned.of_to|].
  split; [now rewrite length_string_of_uint|].
  assert (H : N.to_uint m <> Decimal.Nil).
  { destruct m; simpl; [discriminate|apply DecimalPos.Unsigned.to_uint_nonnil]. }
  destruct (N.to_uint m); try congruence; simpl; eauto.
Qed.

Lemma read_sign_digit c s d :
  digit_of_ascii c = Some d -> read_sign (String c s) = (false, String c s).
Proof.
  destruct c as [[] [] [] [] [] [] [] []]; try discriminate; reflexivity.
Qed.

Lemma read_exponent_str z : read_exponent (str_exponent z) = Some z.
Proof.
  unfold str_exponent.
  destruct (digits_of_N_spec (Z.abs_N z)) as (D & V & _ & c & ds' & E).
  set (pad := if (Z.abs_N z <? 10)%N then "0" else "").
  assert (P : all_digits (pad +:+ digits_of_N (Z.abs_N z)) = true
              /\ sval (pad +:+ digits_of_N (Z.abs_N z)) 0 = Z.abs_N z
              /\ exists n, String.length (pad +:+ digits_of_N (Z.abs_N z)) = S n).
  { subst pad. destruct (Z.abs_N z <? 10)%N.
    - rewrite sapp_cons, sapp_nil. simpl. rewrite D. split; [reflexivity|]. split; [exact V|eauto].
    - rewrite sapp_nil. split; [exact D|]. split; [exact V|]. rewrite E. simpl. eauto. }
  destruct P as (PD & PV & n & PL).
  destruct (Z.ltb_spec z 0) as [Hz|Hz].
  - change (read_exponent ("e-" +:+ pad +:+ digits_of_N (Z.abs_N z)))
      with (let '(ev, ne, s2) := read_digits (pad +:+ digits_of_N (Z.abs_N z)) 0 0 in
            match ne, s2 with S _, EmptyString => Some (signed true ev) | _, _ => None end).
    rewrite read_digits_all by exact PD. rewrite PV, PL. simpl. f_equal. unfold signed. lia.
  - change (read_exponent ("e+" +:+ pad +:+ digits_of_N (Z.abs_N z)))
      with (let '(ev, ne, s2) := read_digits (pad +:+ digits_of_N (Z.abs_N z)) 0 0 in
            match ne, s2 with S _, EmptyString => Some (signed false ev) | _, _ => None end).
    rewrite read_digits_all by exact PD. rewrite PV, PL. simpl. f_equal. unfold signed. lia.
Qed.

Lemma stops_str_exponent z : exists s, str_exponent z = String "e" s.
Proof. unfold str_exponent. destruct (z <? 0); eexists; reflexivity. Qed.

Lemma read_unsigned_frac si sf rest ex :
  all_digits si = true -> all_digits sf = true ->
  (0 < String.length si + String.length sf)%nat ->
  stops rest -> read_exponent rest = Some ex ->
  read_unsigned (si +:+ "." +:+ sf +:+ rest)
  = Some (sval sf (sval si 0), ex - Z.of_nat (String.length sf)).
Proof.
  intros Di Df Hlen Hstop Hex. unfold read_unsigned.
  rewrite read_digits_app by exact Di.
  rewrite sapp_cons, sapp_nil.
  rewrite (read_digits_stops (String "." _)) by reflexivity.
  rewrite read_digits_app by exact Df.
  rewrite read_digits_stops by exact Hstop.
  destruct (Nat.eqb_spec (0 + String.length si + (0 + String.length sf)) 0); [lia|].
  now rewrite Hex.
Qed.

Lemma read_unsigned_int si r ex :
  all_digits si = true -> (0 < String.length si)%nat ->
  read_exponent (String "e" r) = Some ex ->
  read_unsigned (si +:+ String "e" r) = Some (sval si 0, ex).
Proof.
  intros Di Hlen Hex. unfold read_unsigned.
  rewrite read_digits_app by exact Di.
  rewrite (read_digits_stops (String "e" _)) by reflexivity.
  destruct (Nat.eqb_spec (0 + String.length si + 0) 0); [lia|].
  rewrite Hex. do 2 f_equal. lia.
Qed.

Lemma sapp_nil_r s : s +:+ "" = s.
Proof. induction s as [|c s IH]; [reflexivity|]. now rewrite sapp_cons, IH. Qed.

Lemma sapp_assoc s1 s2 s3 : (s1 +:+ s2) +:+ s3 = s1 +:+ s2 +:+ s3.
Proof. induction s1 as [|c s1 IH]; [reflexivity|]. now rewrite !sapp_cons, IH. Qed.

Lemma read_unsigned_fixed si sf :
  all_digits si = true -> all_digits sf = true ->
  (0 < String.length si + String.length sf)%nat ->
  read_unsigned (si +:+ "." +:+ sf)
  = Some (sval sf (sval si 0), - Z.of_nat (String.length sf)).
Proof.
  intros Di Df Hlen. rewrite <- (sapp_nil_r sf) at 1.
  rewrite (read_unsigned_frac si sf "" 0) by (auto; exact I). f_equal.
Qed.

Lemma parse_number_signed (sg : bool) body c d s' r :
  body = String c s' -> digit_of_ascii c = Some d ->
  read_unsigned body = Some r ->
  parse_number ((if sg then "-" else "") +:+ body) = Some (sg, r.1, r.2).
Proof.
  intros -> Hc Hr. unfold parse_number. destruct sg.
  - rewrite sapp_cons, sapp_nil. cbn [read_sign]. rewrite Hr. now destruct r.
  - rewrite sapp_nil, (read_sign_digit _ _ _ Hc), Hr. now destruct r.
Qed.

Lemma all_digits_head c s :
  all_digits (String c s) = true -> exists d, digit_of_ascii c = Some d.
Proof. simpl. destruct (digit_of_ascii c); [eauto|discriminate]. Qed.

(** [Decimal(str(x))] read from the printed string is the numeral computed
    by [Decimal_of_str_float]. *)
Lemma Decimal_of_string_str_float x :
  Decimal_of_string (str_float x) = Ok (Decimal_of_str_float x).
Proof.
  unfold Decimal_of_string, str_float, Decimal_of_str_float.
  destruct (normalize (f_man x) (f_exp x)) as [m e].
  destruct (digits_of_N_spec m) as (D & V & L & c & ds' & E).
  cbv zeta. rewrite L.
  set (ds := digits_of_N m) in *. set (n := ndigits m) in *.
  assert (Hn : n = Z.of_nat (S (String.length ds'))) by (rewrite <- L, E; reflexivity).
  destruct (all_digits_head c ds' ltac:(now rewrite <- E)) as [d0 Hd0].
  assert (D' : all_digits ds' = true).
  { rewrite E in D. simpl in D. now rewrite Hd0 in D. }
  destruct ((n + e <=? -4) || (16 <? n + e)) eqn:Csci.
  - (* scientific notation *)
    cbn [orb].
    destruct (stops_str_exponent (n + e - 1)) as [r Hr].
    pose proof (read_exponent_str (n + e - 1)) as Hex.
    assert (S1 : substring 0 1 ds = String c "").
    { rewrite E. destruct ds'; reflexivity. }
    assert (S2 : substring 1 (Z.to_nat (n - 1)) ds = ds').
    { rewrite E, Hn. replace (Z.to_nat _) with (String.length ds') by lia.
      change (substring 1 ?k (String c ds')) with (substring 0 k ds').
      apply substring_0_all. }
    rewrite S1, S2.
    destruct (Z.ltb_spec 1 n) as [H1|H1].
    + erewrite parse_number_signed; [|reflexivity|exact Hd0|].
      2:{ change (String c "" +:+ ("." +:+ ds') +:+ str_exponent (n + e - 1))
            with ((String c "") +:+ "." +:+ ds' +:+ str_exponent (n + e - 1)).
          apply read_unsigned_frac; [simpl; now rewrite Hd0|exact D'|simpl; lia| |exact Hex].
          rewrite Hr. reflexivity. }
      cbn [fst snd]. do 3 f_equal.
      * rewrite <- V, E. simpl. now rewrite Hd0.
      * lia.
    + assert (ds' = "") as -> by (destruct ds'; [reflexivity|simpl in Hn; lia]).
      erewrite parse_number_signed; [|reflexivity|exact Hd0|].
      2:{ rewrite sapp_nil, Hr. apply read_unsigned_int; [simpl; now rewrite Hd0|simpl; lia|].
          rewrite <- Hr. exact Hex. }
      cbn [fst snd]. do 3 f_equal.
      * rewrite <- V, E. simpl. now rewrite Hd0.
      * simpl in Hn. lia.
  - cbn [orb]. apply orb_false_iff in Csci as [C1 C2].
    apply Z.leb_gt in C1. apply Z.ltb_ge in C2.
    destruct (Z.leb_spec (n + e) 0) as [H0|H0].
    + (* 0.000ddd *)
      destruct (Z.ltb_spec e 0) as [He|He]; [|lia].
      erewrite parse_number_signed; [|reflexivity|reflexivity|].
      2:{ change ("0." +:+ zeros (Z.to_nat (- (n + e))) +:+ ds)
            with ("0" +:+ "." +:+ (zeros (Z.to_nat (- (n + e))) +:+ ds)).
          apply read_unsigned_fixed; [reflexivity| |simpl; lia].
          now rewrite all_digits_app, all_digits_zeros, D. }
      cbn [fst snd]. do 3 f_equal.
      * rewrite sval_app by apply all_digits_zeros.
        change (sval "0" 0) with 0%N. rewrite sval_zeros. exact V.
      * rewrite slength_app, length_zeros. lia.
    + destruct (Z.ltb_spec (n + e) n) as [Hf|Hf].
      * (* ddd.ddd *)
        destruct (Z.ltb_spec e 0) as [He|He]; [|lia].
        destruct (substring_split ds (Z.to_nat (n + e)) ltac:(lia)) as [Es Ls].
        replace (Z.to_nat (n - (n + e))) with (String.length ds - Z.to_nat (n + e))%nat by lia.
        set (s1 := substring 0 (Z.to_nat (n + e)) ds) in *.
        set (s2 := substring (Z.to_nat (n + e)) (String.length ds - Z.to_nat (n + e)) ds) in *.
        assert (D12 : all_digits s1 = true /\ all_digits s2 = true).
        { apply andb_true_iff. rewrite <- all_digits_app, <- Es. exact D. }
        destruct D12 as [D1 D2].
        assert (L2 : String.length ds = (String.length s1 + String.length s2)%nat)
          by (rewrite Es at 1; apply slength_app).
        destruct s1 as [|c1 s1'] eqn:Es1; [simpl in Ls; lia|].
        destruct (all_digits_head _ _ D1) as [d1 Hd1].
        erewrite parse_number_signed; [|reflexivity|exact Hd1|].
        2:{ apply read_unsigned_fixed; [exact D1|exact D2|simpl; lia]. }
        cbn [fst snd]. do 3 f_equal.
        -- rewrite <- sval_app by exact D1. rewrite <- Es. exact V.
        -- lia.
      * (* ddd000.0 *)
        destruct (Z.ltb_spec e 0) as [He|He]; [lia|].
        erewrite parse_number_signed; [|rewrite E; apply sapp_cons|exact Hd0|].
        2:{ change (ds +:+ zeros (Z.to_nat (n + e - n)) +:+ ".0")
              with (ds +:+ zeros (Z.to_nat (n + e - n)) +:+ "." +:+ "0").
            rewrite <- sapp_assoc.
            apply read_unsigned_fixed; [|reflexivity|simpl; lia].
            now rewrite all_digits_app, all_digits_zeros, D. }
        cbn [fst snd]. do 3 f_equal.
        rewrite sval_app by exact D. rewrite sval_zeros, V.
        change (sval "0" ?a) with (a * 10 + 0)%N.
        replace (Z.to_N (e + 1)) with (N.succ (N.of_nat (Z.to_nat (n + e - n)))) by lia.
        rewrite N.pow_succ_r'. lia.
Qed.

(** ** Normal forms *)

(** [strip_zeros] with enough fuel leaves no trailing zero. *)
Lemma strip_zeros_done fuel m e m' e' :
  m <> 0%N -> (m < 2 ^ N.of_nat fuel)%N ->
  strip_zeros fuel m e = (m', e') -> (m' mod 10 <> 0)%N.
Proof.
  revert m e. induction fuel as [|fuel IH]; intros m e Hm Hlt.
  - simpl in Hlt. lia.
  - simpl strip_zeros. destruct (N.eqb_spec (m mod 10) 0) as [H0|H0].
    + apply IH.
      * pose proof (N.div_mod m 10 ltac:(lia)). intros Hd. rewrite Hd, H0 in *. lia.
      * rewrite Nat2N.inj_succ, N.pow_succ_r' in Hlt.
        apply N.Div0.div_lt_upper_bound. lia.
    + now intros [= <- <-].
Qed.

Lemma normalize_done m e m' e' :
  normalize m e = (m', e') -> (m' = 0%N /\ e' = 0) \/ (m' mod 10 <> 0)%N.
Proof.
  unfold normalize. destruct (N.eqb_spec m 0) as [->|Hm].
  - intros [= <- <-]. now left.
  - intros H. right. eapply strip_zeros_done; [exact Hm| |exact H].
    rewrite N2Nat.id. apply N.size_gt.
Qed.

(** Two numerals without trailing zeros and with the same value agree. *)
Lemma canonical_unique m1 e1 m2 e2 :
  (m1 mod 10 <> 0)%N -> (m2 mod 10 <> 0)%N -> e1 <= e2 ->
  Z.of_N m1 = Z.of_N m2 * 10 ^ (e2 - e1) ->
  m1 = m2 /\ e1 = e2.
Proof.
  intros H1 H2 Hle E.
  destruct (Z.eq_dec e1 e2) as [->|Hne].
  - rewrite Z.sub_diag in E. split; [lia|reflexivity].
  - exfalso. apply H1.
    replace (e2 - e1) with (1 + (e2 - e1 - 1)) in E by lia.
    rewrite Z.pow_add_r in E by lia.
    apply N2Z.inj. rewrite N2Z.inj_mod. change (Z.of_N 0) with 0. change (Z.of_N 10) with 10.
    rewrite E. replace (Z.of_N m2 * (10 ^ 1 * 10 ^ (e2 - e1 - 1)))
      with (Z.of_N m2 * 10 ^ (e2 - e1 - 1) * 10) by (change (10 ^ 1) with 10; ring).
    apply Z.mod_mul. lia.
Qed.

Lemma signed_inj s m1 m2 : signed s m1 = signed s m2 -> m1 = m2.
Proof. unfold signed. destruct s; lia. Qed.

Lemma signed_scale s m k : signed s m * k = (if s then -1 else 1) * (Z.of_N m * k).
Proof. unfold signed. destruct s; lia. Qed.

(** The normal form depends on the value only. *)
Lemma normalize_unique s m1 e1 m2 e2 :
  (inject_Z (signed s m1) * pow10 e1 == inject_Z (signed s m2) * pow10 e2)%Q ->
  normalize m1 e1 = normalize m2 e2.
Proof.
  intros H.
  destruct (normalize m1 e1) as [a1 x1] eqn:N1.
  destruct (normalize m2 e2) as [a2 x2] eqn:N2.
  pose proof (normalize_val s _ _ _ _ N1) as V1.
  pose proof (normalize_val s _ _ _ _ N2) as V2.
  rewrite <- V1, <- V2 in H. clear V1 V2.
  assert (Z1 : a1 = 0%N -> a2 = 0%N).
  { intros ->. rewrite signed_zero, Qmult_0_l in H. symmetry in H.
    apply Qmult_integral in H as [H|H]; [|now apply pow10_neq0 in H].
    change 0%Q with (inject_Z 0) in H. apply (proj1 (inject_Z_injective _ _)) in H.
    unfold signed in H. destruct s; lia. }
  assert (Z2 : a2 = 0%N -> a1 = 0%N).
  { intros ->. rewrite signed_zero, Qmult_0_l in H.
    apply Qmult_integral in H as [H|H]; [|now apply pow10_neq0 in H].
    change 0%Q with (inject_Z 0) in H. apply (proj1 (inject_Z_injective _ _)) in H.
    unfold signed in H. destruct s; lia. }
  destruct (normalize_done _ _ _ _ N1) as [[-> ->]|D1];
    destruct (normalize_done _ _ _ _ N2) as [[-> ->]|D2].
  - reflexivity.
  - specialize (Z1 eq_refl). subst a2. now rewrite N.Div0.mod_0_l in D2.
  - specialize (Z2 eq_refl). subst a1. now rewrite N.Div0.mod_0_l in D1.
  - destruct (Z.le_ge_cases x1 x2) as [Hle|Hle].
    + apply scaled_eq in H; [|exact Hle].
      rewrite signed_scale in H. unfold signed in H at 1.
      assert (E : Z.of_N a1 = Z.of_N a2 * 10 ^ (x2 - x1)) by (destruct s; lia).
      destruct (canonical_unique _ _ _ _ D1 D2 Hle E) as [-> ->]. reflexivity.
    + symmetry in H. apply scaled_eq in H; [|exact Hle].
      rewrite signed_scale in H. unfold signed in H at 1.
      assert (E : Z.of_N a2 = Z.of_N a1 * 10 ^ (x1 - x2)) by (destruct s; lia).
      destruct (canonical_unique _ _ _ _ D2 D1 Hle E) as [-> ->]. reflexivity.
Qed.

Lemma float_norm_val x : feq (float_norm x) x.
Proof. apply mkfloat_val. Qed.

(** ** The validators *)

Lemma float_lt_iff x y : float_lt x y = true <-> flt x y.
Proof.
  unfold float_lt, flt. rewrite negb_true_iff, <- not_true_iff_false, Qle_bool_iff.
  split; [apply Qnot_le_lt|apply Qlt_not_le].
Qed.

Lemma float_lt_false x y : float_lt x y = false <-> ~ flt x y.
Proof. rewrite <- float_lt_iff. now destruct (float_lt x y). Qed.


(** What the conversion chain of lines 222-224 returns when it returns. *)
Lemma quantize_to_step_Ok value step adj :
  quantize_to_step value step = Ok adj ->
  adj = float_of_Decimal
          (rescale_down (Decimal_of_str_float value) (d_exp (Decimal_of_str_float step))).
Proof.
  unfold quantize_to_step. rewrite !Decimal_of_string_str_float. cbn [rbind].
  destruct (quantize_ROUND_DOWN _ _) as [q|] eqn:Q; [|discriminate].
  cbn [rbind]. intros [= <-]. now rewrite (quantize_ROUND_DOWN_Ok _ _ _ Q).
Qed.

(** A multiple of the step is on the decimal grid of the step's exponent. *)
Lemma multiple_on_grid step x :
  multiple_of step x ->
  exists k : Z,
    (Decimal_val (Decimal_of_str_float x)
     == inject_Z k * pow10 (d_exp (Decimal_of_str_float step)))%Q.
Proof.
  intros [k Hk].
  destruct (Decimal_of_str_float_spec x) as (_ & Vx & _).
  destruct (Decimal_of_str_float_spec step) as (_ & Vs & _).
  cbv zeta in *.
  exists (k * signed (d_sign (Decimal_of_str_float step)) (d_int (Decimal_of_str_float step))).
  rewrite Vx, Hk, <- Vs. unfold Decimal_val.
  rewrite inject_Z_mult. ring.
Qed.

Lemma rescale_down_sign d t : d_sign (rescale_down d t) = d_sign d.
Proof.
  unfold rescale_down. destruct (_ =? _)%N; [reflexivity|]. now destruct (_ <=? _).
Qed.

(** On a multiple of the step the conversion chain returns the float it was
    given, in normal form. *)
Lemma quantize_to_step_multiple value step adj :
  multiple_of step value ->
  quantize_to_step value step = Ok adj ->
  adj = float_norm value.
Proof.
  intros Hm H. apply quantize_to_step_Ok in H. subst adj.
  destruct (multiple_on_grid _ _ Hm) as [k Hk].
  pose proof (rescale_down_exact _ _ _ Hk) as R.
  destruct (Decimal_of_str_float_spec value) as (Sx & Vx & _). cbv zeta in *.
  rewrite Vx in R.
  unfold float_of_Decimal, float_norm, mkfloat.
  rewrite rescale_down_sign, Sx.
  erewrite normalize_unique; [reflexivity|].
  unfold Decimal_val, float_val in R. rewrite rescale_down_sign, Sx in R. exact R.
Qed.

(** ** The loops on a filter list that holds a rule *)

Lemma float_field_getitem f k x :
  float_field f k = Some x ->
  rbind (getitem f k) (fun v => rbind (py_float v) (fun y => Ok y)) = Ok x.
Proof.
  unfold float_field, getitem. destruct (f !! k) as [v|]; [|discriminate].
  cbn [rbind]. destruct (py_float v); [|discriminate]. now intros [= ->].
Qed.

Lemma float_field_Some f k x :
  float_field f k = Some x -> exists v, getitem f k = Ok v /\ py_float v = Ok x.
Proof.
  unfold float_field, getitem. destruct (f !! k) as [v|]; [|discriminate].
  destruct (py_float v) eqn:E; [|discriminate]. intros [= ->]. eauto.
Qed.

Lemma _validate_quantity_loop_rule filters q mn mx st :
  lot_size_rule filters = Some (mn, mx, st) ->
  _validate_quantity_loop filters q = quantity_outcome mn mx st q.
Proof.
  unfold lot_size_rule, rule_of.
  induction filters as [|f rest IH]; [discriminate|].
  cbn [find_filter _validate_quantity_loop]. unfold getitem at 1.
  destruct (f !! "filterType") as [ft|]; [|discriminate]. cbn [rbind].
  destruct (eq_str ft "LOT_SIZE"); [|exact IH].
  destruct (float_field f "minQty") as [a|] eqn:Ea; [|discriminate].
  destruct (float_field f "maxQty") as [b|] eqn:Eb; [|discriminate].
  destruct (float_field f "stepSize") as [c|] eqn:Ec; [|discriminate].
  intros [= -> -> ->].
  apply float_field_Some in Ea as (va & Ga & Pa).
  apply float_field_Some in Eb as (vb & Gb & Pb).
  apply float_field_Some in Ec as (vc & Gc & Pc).
  rewrite Ga; cbn [rbind]; rewrite Pa; cbn [rbind].
  rewrite Gb; cbn [rbind]; rewrite Pb; cbn [rbind].
  rewrite Gc; cbn [rbind]; rewrite Pc; cbn [rbind].
  reflexivity.
Qed.

Lemma _validate_price_loop_rule filters p mn mx st :
  price_rule filters = Some (mn, mx, st) ->
  _validate_price_loop filters p = price_outcome mn mx st p.
Proof.
  unfold price_rule, rule_of.
  induction filters as [|f rest IH]; [discriminate|].
  cbn [find_filter _validate_price_loop]. unfold getitem at 1.
  destruct (f !! "filterType") as [ft|]; [|discriminate]. cbn [rbind].
  destruct (eq_str ft "PRICE_FILTER"); [|exact IH].
  destruct (float_field f "minPrice") as [a|] eqn:Ea; [|discriminate].
  destruct (float_field f "maxPrice") as [b|] eqn:Eb; [|discriminate].
  destruct (float_field f "tickSize") as [c|] eqn:Ec; [|discriminate].
  intros [= -> -> ->].
  apply float_field_Some in Ea as (va & Ga & Pa).
  apply float_field_Some in Eb as (vb & Gb & Pb).
  apply float_field_Some in Ec as (vc & Gc & Pc).
  rewrite Ga; cbn [rbind]; rewrite Pa; cbn [rbind].
  rewrite Gb; cbn [rbind]; rewrite Pb; cbn [rbind].
  rewrite Gc; cbn [rbind]; rewrite Pc; cbn [rbind].
  reflexivity.
Qed.

Lemma _validate_quantity_known symbol q b filters :
  known_filters symbol b = Some filters ->
  _validate_quantity symbol q b
  = (fst (get_symbol_info symbol b), or_skip q (_validate_quantity_loop filters q)).
Proof.
  unfold known_filters, _validate_quantity, _validate_quantity_try, bind.
  destruct (get_symbol_info symbol b) as [b1 [info|e]]; [|discriminate].
  unfold lift, get_filters. intros ->. cbn [fst].
  now destruct (_validate_quantity_loop filters q).
Qed.

Lemma _validate_price_known symbol p b filters :
  known_filters symbol b = Some filters ->
  _validate_price symbol p b
  = (fst (get_symbol_info symbol b), or_skip p (_validate_price_loop filters p)).
Proof.
  unfold known_filters, _validate_price, _validate_price_try, bind.
  destruct (get_symbol_info symbol b) as [b1 [info|e]]; [|discriminate].
  unfold lift, get_filters. intros ->. cbn [fst].
  now destruct (_validate_price_loop filters p).
Qed.

Lemma lacks_filter_quantity filters q :
  lacks_filter "LOT_SIZE" filters ->
  _validate_quantity_loop filters q = Ok (true, "No LOT_SIZE filter found", q)
  \/ _validate_quantity_loop filters q = Err (KeyError "filterType").
Proof.
  induction 1 as [|f rest Hf _ IH]; [now left|].
  cbn [_validate_quantity_loop]. unfold getitem.
  destruct (f !! "filterType") as [ft|] eqn:E; [|now right].
  cbn [rbind]. now rewrite (Hf ft eq_refl).
Qed.

Lemma lacks_filter_price filters p :
  lacks_filter "PRICE_FILTER" filters ->
  _validate_price_loop filters p = Ok (true, "No PRICE_FILTER found", p)
  \/ _validate_price_loop filters p = Err (KeyError "filterType").
Proof.
  induction 1 as [|f rest Hf _ IH]; [now left|].
  cbn [_validate_price_loop]. unfold getitem.
  destruct (f !! "filterType") as [ft|] eqn:E; [|now right].
  cbn [rbind]. now rewrite (Hf ft eq_refl).
Qed.

(** ** The trace of remote calls *)



Lemma steps_new_calls b b' l : steps b b' l -> new_calls b b' = l.
Proof. unfold steps, new_calls. intros ->. apply drop_app_length. Qed.

Lemma steps_orders_sent b b' l : steps b b' l -> orders_sent b b' = omap order_of l.
Proof. unfold orders_sent. intros H. now rewrite (steps_new_calls _ _ _ H). Qed.

Lemma remote_steps {A} c (answer : Client -> list remote_call -> result A) b :
  steps b (fst (remote c answer b)) [c].
Proof. reflexivity. Qed.








(** ** What each order method sends *)









(** ** Bounds and the step grid *)

(** Multiples, read on integers at a common exponent. *)
Lemma multiple_of_divide st x :
  multiple_of st x ->
  let e := Z.min (f_exp x) (f_exp st) in
  (signed (f_sign st) (f_man st) * 10 ^ (f_exp st - e)
   | signed (f_sign x) (f_man x) * 10 ^ (f_exp x - e)).
Proof.
  intros [k H] e. exists k. unfold float_val in H.
  rewrite (pow10_split e (f_exp x)), (pow10_split e (f_exp st)) in H by lia.
  rewrite !Qmult_assoc, <- !inject_Z_mult in H.
  apply Qmult_inj_r in H; [|apply pow10_neq0].
  apply (proj1 (inject_Z_injective _ _)) in H. lia.
Qed.

(** C1 (the code departs from the claim).  The claim asks for an adjusted
    value that is a multiple of the step.  [quantize] takes only the
    exponent of its second operand, and [str(1.0)] is ["1.0"]: with the rule
    [minQty = 1], [maxQty = 1000], [stepSize = 1] the in-bounds quantity
    [1.55] is accepted and adjusted to [1.5], which is no multiple of [1];
    with [tickSize = 0.5] the in-bounds price [123.456] is adjusted to
    [123.4], which is no multiple of [0.5]. *)
Theorem validate_quantity_off_step_grid :
  known_filters "DOGEUSDT" btc_bot
    = Some [price_filter "0.5" "2000" "0.5"; lot_size_filter "1" "1000" "1"] /\
  lot_size_rule [price_filter "0.5" "2000" "0.5"; lot_size_filter "1" "1000" "1"]
    = Some (fl "1", fl "1000", fl "1") /\
  ~ flt (fl "1.55") (fl "1") /\ ~ flt (fl "1000") (fl "1.55") /\
  snd (_validate_quantity "DOGEUSDT" (fl "1.55") btc_bot) = (true, "Valid", fl "1.5") /\
  ~ multiple_of (fl "1") (fl "1.5") /\
  price_rule [price_filter "0.5" "2000" "0.5"; lot_size_filter "1" "1000" "1"]
    = Some (fl "0.5", fl "2000", fl "0.5") /\
  ~ flt (fl "123.456") (fl "0.5") /\ ~ flt (fl "2000") (fl "123.456") /\
  snd (_validate_price "DOGEUSDT" (fl "123.456") btc_bot) = (true, "Valid", fl "123.4") /\
  ~ multiple_of (fl "0.5") (fl "123.4").
Proof.
  split; [reflexivity|]. split; [reflexivity|].
  split; [intros H; vm_compute in H; discriminate|].
  split; [intros H; vm_compute in H; discriminate|].
  split; [vm_compute; reflexivity|].
  split.
  { intros H. apply multiple_of_divide in H. cbv zeta in H.
    apply Z.mod_divide in H; [|vm_compute; discriminate].
    vm_compute in H. discriminate. }
  split; [reflexivity|].
  split; [intros H; vm_compute in H; discriminate|].
  split; [intros H; vm_compute in H; discriminate|].
  split; [vm_compute; reflexivity|].
  intros H. apply multiple_of_divide in H. cbv zeta in H.
  apply Z.mod_divide in H; [|vm_compute; discriminate].
  vm_compute in H. discriminate.
Qed.

Lemma float_gt_iff x y : float_gt x y = true <-> flt y x.
Proof. apply float_lt_iff. Qed.

Lemma float_gt_false x y : float_gt x y = false <-> ~ flt y x.
Proof. apply float_lt_false. Qed.




Lemma quantity_outcome_multiple mn mx st v :
  ~ flt v mn -> ~ flt mx v -> multiple_of st v ->
  exists msg adj,
    or_skip v (quantity_outcome mn mx st v) = (true, msg, adj) /\
    (adj = v \/ adj = float_norm v).
Proof.
  intros H1 H2 Hm. apply float_lt_false in H1. apply float_gt_false in H2.
  unfold quantity_outcome. rewrite H1, H2.
  destruct (quantize_to_step v st) as [adj|e] eqn:Q; cbn [rbind or_skip].
  - exists "Valid", adj. split; [reflexivity|]. right.
    now apply (quantize_to_step_multiple v st).
  - exists "Validation skipped", v. auto.
Qed.

Lemma price_outcome_multiple mn mx st v :
  ~ flt v mn -> ~ (flt float_zero mx /\ flt mx v) -> multiple_of st v ->
  exists msg adj,
    or_skip v (price_outcome mn mx st v) = (true, msg, adj) /\
    (adj = v \/ adj = float_norm v).
Proof.
  intros H1 H2 Hm. apply float_lt_false in H1.
  assert (G : float_gt mx float_zero && float_gt v mx = false).
  { apply not_true_iff_false. intros G. apply andb_true_iff in G as [G1 G2].
    apply float_gt_iff in G1, G2. auto. }
  unfold price_outcome. rewrite H1, G.
  destruct (quantize_to_step v st) as [adj|e] eqn:Q; cbn [rbind or_skip].
  - exists "Valid", adj. split; [reflexivity|]. right.
    now apply (quantize_to_step_multiple v st).
  - exists "Validation skipped", v. auto.
Qed.

Lemma same_float adj v :
  adj = v \/ adj = float_norm v -> feq adj v /\ (canonical v -> adj = v).
Proof.
  intros [->| ->].
  - split; [unfold feq; reflexivity|auto].
  - split; [apply float_norm_val|]. now intros ->.
Qed.

(** C4.  A value that is a multiple of the step and within the bounds of
    the rule is accepted and comes back as the same number; it is the very
    same float when the float is in the form [float] builds. *)
Theorem normalization_keeps_grid_values b symbol filters mn mx st v :
  known_filters symbol b = Some filters ->
  multiple_of st v -> ~ flt v mn ->
  (lot_size_rule filters = Some (mn, mx, st) -> ~ flt mx v ->
     exists msg adj,
       snd (_validate_quantity symbol v b) = (true, msg, adj) /\
       feq adj v /\ (canonical v -> adj = v)) /\
  (price_rule filters = Some (mn, mx, st) -> ~ (flt float_zero mx /\ flt mx v) ->
     exists msg adj,
       snd (_validate_price symbol v b) = (true, msg, adj) /\
       feq adj v /\ (canonical v -> adj = v)).
Proof.
  intros K Hm Hmin. split; intros R Hmax.
  - rewrite (_validate_quantity_known _ _ _ _ K), (_validate_quantity_loop_rule _ _ _ _ _ R).
    destruct (quantity_outcome_multiple mn mx st v Hmin Hmax Hm) as (msg & adj & E & S).
    exists msg, adj. split; [exact E|]. now apply same_float.
  - rewrite (_validate_price_known _ _ _ _ K), (_validate_price_loop_rule _ _ _ _ _ R).
    destruct (price_outcome_multiple mn mx st v Hmin Hmax Hm) as (msg & adj & E & S).
    exists msg, adj. split; [exact E|]. now apply same_float.
Qed.

Lemma multiple_of_intro (k : Z) st x :
  (float_val x == inject_Z k * float_val st)%Q -> multiple_of st x.
Proof. intros H. now exists k. Qed.

Lemma normalization_keeps_grid_values_witness :
  (exists msg adj,
     snd (_validate_quantity "BTCUSDT" (fl "0.25") btc_bot) = (true, msg, adj) /\
     feq adj (fl "0.25") /\ (canonical (fl "0.25") -> adj = fl "0.25")) /\
  (exists msg adj,
     snd (_validate_price "BTCUSDT" (fl "123.4") btc_bot) = (true, msg, adj) /\
     feq adj (fl "123.4") /\ (canonical (fl "123.4") -> adj = fl "123.4")).
Proof.
  split.
  - refine (proj1 (normalization_keeps_grid_values btc_bot "BTCUSDT" _
                     (fl "0.001") (fl "1000") (fl "0.001") (fl "0.25") _ _ _) _ _).
    + reflexivity.
    + apply (multiple_of_intro 250). vm_compute. reflexivity.
    + intros H. vm_compute in H. discriminate.
    + reflexivity.
    + intros H. vm_compute in H. discriminate.
  - refine (proj2 (normalization_keeps_grid_values btc_bot "BTCUSDT" _
                     (fl "100") (fl "0") (fl "0.1") (fl "123.4") _ _ _) _ _).
    + reflexivity.
    + apply (multiple_of_intro 1234). vm_compute. reflexivity.
    + intros H. vm_compute in H. discriminate.
    + reflexivity.
    + intros [H _]. vm_compute in H. discriminate.
Defined.

(** C7.  When the symbol's filters hold no item of the matching type, and
    when the inspection raises any exception, the validators answer success
    with the raw value unchanged and one of the two explanatory messages. *)
Theorem missing_filter_or_error_passes_through b symbol v :
  (forall filters,
     known_filters symbol b = Some filters -> lacks_filter "LOT_SIZE" filters ->
     snd (_validate_quantity symbol v b) = (true, "No LOT_SIZE filter found", v)
     \/ snd (_validate_quantity symbol v b) = (true, "Validation skipped", v)) /\
  (forall filters,
     known_filters symbol b = Some filters -> lacks_filter "PRICE_FILTER" filters ->
     snd (_validate_price symbol v b) = (true, "No PRICE_FILTER found", v)
     \/ snd (_validate_price symbol v b) = (true, "Validation skipped", v)) /\
  (forall e, snd (_validate_quantity_try symbol v b) = Err e ->
     snd (_validate_quantity symbol v b) = (true, "Validation skipped", v)) /\
  (forall e, snd (_validate_price_try symbol v b) = Err e ->
     snd (_validate_price symbol v b) = (true, "Validation skipped", v)).
Proof.
  repeat split.
  - intros filters K L. rewrite (_validate_quantity_known _ _ _ _ K). cbn [snd].
    destruct (lacks_filter_quantity filters v L) as [-> | ->]; auto.
  - intros filters K L. rewrite (_validate_price_known _ _ _ _ K). cbn [snd].
    destruct (lacks_filter_price filters v L) as [-> | ->]; auto.
  - intros e. unfold _validate_quantity.
    destruct (_validate_quantity_try symbol v b) as [b' [r|e']]; cbn [snd]; [discriminate|reflexivity].
  - intros e. unfold _validate_price.
    destruct (_validate_price_try symbol v b) as [b' [r|e']]; cbn [snd]; [discriminate|reflexivity].
Qed.

(** ** What the conversion chain guarantees *)

Lemma scaled_ge a b e t :
  e <= t ->
  (inject_Z b * pow10 t <= inject_Z a * pow10 e)%Q <-> b * 10 ^ (t - e) <= a.
Proof.
  intros H. rewrite (pow10_split e t H), Qmult_assoc, <- inject_Z_mult.
  rewrite Qmult_le_r by apply pow10_pos. now rewrite <- Zle_Qle.
Qed.

Lemma rescale_down_exp d t : d_exp (rescale_down d t) = t.
Proof.
  unfold rescale_down. destruct (_ =? _)%N; [reflexivity|]. now destruct (_ <=? _).
Qed.

(** Rescaling a non-negative numeral rounds it down, by less than one unit
    of the target exponent. *)
Lemma rescale_down_bounds d t :
  d_sign d = false ->
  (Decimal_val (rescale_down d t) <= Decimal_val d)%Q /\
  (Decimal_val d < Decimal_val (rescale_down d t) + pow10 t)%Q.
Proof.
  intros Hs. unfold rescale_down.
  destruct (N.eqb_spec (d_int d) 0) as [Hz|Hz].
  - unfold Decimal_val; cbn [d_sign d_int d_exp]. rewrite Hz, signed_zero, !Qmult_0_l.
    split; [apply Qle_refl|]. rewrite Qplus_0_l. apply pow10_pos.
  - destruct (Z.leb_spec t (d_exp d)) as [Hle|Hlt];
      unfold Decimal_val; cbn [d_sign d_int d_exp]; rewrite Hs; unfold signed.
    + assert (E : (inject_Z (Z.of_N (d_int d * 10 ^ Z.to_N (d_exp d - t))) * pow10 t
                   == inject_Z (Z.of_N (d_int d)) * pow10 (d_exp d))%Q).
      { apply scaled_eq; [exact Hle|].
        rewrite N2Z.inj_mul, of_N_pow10, Z2N.id by lia. reflexivity. }
      rewrite E. split; [apply Qle_refl|].
      rewrite <- (Qplus_0_r (inject_Z (Z.of_N (d_int d)) * pow10 (d_exp d))) at 1.
      apply Qplus_lt_r, pow10_pos.
    + set (j := Z.to_N (t - d_exp d)).
      assert (P : (10 ^ j <> 0)%N) by (apply N.pow_nonzero; lia).
      pose proof (N.div_mod (d_int d) (10 ^ j) P) as D.
      pose proof (N.mod_lt (d_int d) (10 ^ j) P) as L.
      assert (J : 10 ^ (t - d_exp d) = Z.of_N (10 ^ j))
        by (unfold j; rewrite of_N_pow10, Z2N.id by lia; reflexivity).
      assert (G : Z.of_N (d_int d / 10 ^ j) * Z.of_N (10 ^ j) <= Z.of_N (d_int d)
                  /\ Z.of_N (d_int d)
                     < (Z.of_N (d_int d / 10 ^ j) + 1) * Z.of_N (10 ^ j)).
      { clear P J. remember (d_int d) as c eqn:Ec. remember (10 ^ j)%N as p eqn:Ep.
        remember (c / p)%N as qq eqn:Eq. remember (c mod p)%N as r eqn:Er.
        clear Ec Ep Eq Er Hz. nia. }
      destruct G as [G1 G2]. split.
      * apply scaled_ge; [lia|]. rewrite J. exact G1.
      * rewrite <- (Qmult_1_l (pow10 t)) at 2. rewrite <- Qmult_plus_distr_l.
        change 1%Q with (inject_Z 1). rewrite <- inject_Z_plus.
        apply scaled_lt; [lia|]. rewrite J. exact G2.
Qed.

(** The grid the conversion chain rounds to is no coarser than a positive step. *)
Lemma step_grid_le_step step :
  (0 < float_val step)%Q ->
  (pow10 (d_exp (Decimal_of_str_float step)) <= float_val step)%Q.
Proof.
  intros Hpos.
  destruct (Decimal_of_str_float_spec step) as (_ & _ & m & e & Hn & Ht). cbv zeta in *.
  pose proof (normalize_val (f_sign step) _ _ _ _ Hn) as V.
  fold (float_val step) in V. rewrite <- V in Hpos |- *.
  assert (Hm : 1 <= signed (f_sign step) m).
  { destruct (Z.lt_ge_cases 0 (signed (f_sign step) m)) as [H|H]; [lia|].
    exfalso. apply (Qlt_irrefl 0). eapply Qlt_le_trans; [exact Hpos|].
    rewrite <- (Qmult_0_l (pow10 e)). apply Qmult_le_compat_r.
    - change 0%Q with (inject_Z 0). rewrite <- Zle_Qle. exact H.
    - apply Qlt_le_weak, pow10_pos. }
  assert (T : d_exp (Decimal_of_str_float step) <= e) by (destruct Ht as [->|[? ->]]; lia).
  rewrite <- (Qmult_1_l (pow10 (d_exp _))). change 1%Q with (inject_Z 1).
  apply scaled_le; [exact T|].
  assert (0 < 10 ^ (e - d_exp (Decimal_of_str_float step))) by (apply Z.pow_pos_nonneg; lia).
  nia.
Qed.

(** What the conversion chain guarantees for a non-negative value: the
    result is on the decimal grid of the printed step, not above the value
    and less than one grid unit below it. *)
Lemma quantize_to_step_rounds_down value step adj :
  f_sign value = false ->
  quantize_to_step value step = Ok adj ->
  let t := d_exp (Decimal_of_str_float step) in
  (exists k : Z, (float_val adj == inject_Z k * pow10 t)%Q) /\
  (float_val adj <= float_val value)%Q /\
  (float_val value < float_val adj + pow10 t)%Q.
Proof.
  intros Hs H t. apply quantize_to_step_Ok in H. subst adj.
  destruct (Decimal_of_str_float_spec value) as (Sx & Vx & _). cbv zeta in *.
  rewrite Hs in Sx.
  destruct (rescale_down_bounds (Decimal_of_str_float value) t Sx) as [B1 B2].
  rewrite Vx in B1, B2. split; [|rewrite float_of_Decimal_val; split; assumption].
  exists (signed (d_sign (rescale_down (Decimal_of_str_float value) t))
                 (d_int (rescale_down (Decimal_of_str_float value) t))).
  rewrite float_of_Decimal_val. unfold Decimal_val. rewrite rescale_down_exp. reflexivity.
Qed.

(** In place of C1: an in-bounds non-negative value is accepted, and the
    adjusted value is not above it and less than one (positive) step below. *)
Lemma quantity_rounds_down b symbol filters mn mx st v :
  known_filters symbol b = Some filters ->
  lot_size_rule filters = Some (mn, mx, st) ->
  f_sign v = false -> (0 < float_val st)%Q ->
  ~ flt v mn -> ~ flt mx v ->
  exists msg adj,
    snd (_validate_quantity symbol v b) = (true, msg, adj) /\
    (float_val adj <= float_val v)%Q /\
    (float_val v < float_val adj + float_val st)%Q.
Proof.
  intros K R Hs Hst H1 H2.
  rewrite (_validate_quantity_known _ _ _ _ K), (_validate_quantity_loop_rule _ _ _ _ _ R).
  apply float_lt_false in H1. apply float_gt_false in H2.
  unfold quantity_outcome. rewrite H1, H2. cbn [snd].
  destruct (quantize_to_step v st) as [adj|e] eqn:Q; cbn [rbind or_skip].
  - exists "Valid", adj. split; [reflexivity|].
    destruct (quantize_to_step_rounds_down v st adj Hs Q) as (_ & B1 & B2).
    split; [exact B1|]. eapply Qlt_le_trans; [exact B2|].
    apply Qplus_le_r, step_grid_le_step, Hst.
  - exists "Validation skipped", v. split; [reflexivity|]. split; [apply Qle_refl|].
    rewrite <- (Qplus_0_r (float_val v)) at 1. now apply Qplus_lt_r.
Qed.

(** ** Requests sent to the exchange *)









(** C6.  Outside [1 .. 125] [set_leverage] raises [ValueError] and leaves
    the bot, its trace of remote calls included, as it was; inside the range
    it makes the one remote call and returns what the client answers. *)
Theorem set_leverage_range b symbol lev :
  ((lev < 1 \/ 125 < lev) ->
     set_leverage symbol lev b = (b, Err (ValueError "Leverage must be between 1 and 125"))) /\
  (1 <= lev <= 125 ->
     remote_calls (fst (set_leverage symbol lev b))
       = remote_calls b ++ [FuturesChangeLeverage symbol lev] /\
     snd (set_leverage symbol lev b)
       = futures_change_leverage (client b) (remote_calls b) symbol lev).
Proof.
  unfold set_leverage. split; intros H.
  - replace ((lev <? 1) || (125 <? lev)) with true; [reflexivity|].
    symmetry. apply orb_true_iff. rewrite !Z.ltb_lt. exact H.
  - replace ((lev <? 1) || (125 <? lev)) with false; [split; reflexivity|].
    symmetry. apply orb_false_iff. rewrite !Z.ltb_ge. lia.
Qed.

(** ** Positions and the response formatter *)

Lemma active_positions_loop_sound positions l :
  active_positions_loop positions = Ok l ->
  Forall2 converts (List.filter amount_nonzero positions) l.
Proof.
  revert l. induction positions as [|pos rest IH]; intros l; cbn [active_positions_loop List.filter].
  - intros [= <-]. constructor.
  - unfold amount_nonzero.
    destruct (getitem pos "positionAmt") as [v|]; cbn [rbind]; [|discriminate].
    destruct (py_float v) as [amt|]; cbn [rbind]; [|discriminate].
    destruct (float_ne amt float_zero).
    + destruct (position_of_raw pos) as [p|] eqn:P; cbn [rbind]; [|discriminate].
      destruct (active_positions_loop rest) as [rest'|]; cbn [rbind]; [|discriminate].
      intros [= <-]. constructor; [exact P|now apply IH].
    + apply IH.
Qed.

Lemma active_positions_loop_total positions :
  (forall pos, pos ∈ positions ->
     exists amt, rbind (getitem pos "positionAmt") py_float = Ok amt /\
       (float_ne amt float_zero = true -> exists p, position_of_raw pos = Ok p)) ->
  exists l, active_positions_loop positions = Ok l.
Proof.
  induction positions as [|pos rest IH]; intros W; cbn [active_positions_loop].
  - eauto.
  - destruct (W pos (list_elem_of_here _ _)) as (amt & A & P).
    destruct IH as [rest' R]; [intros x Hx; apply W; now apply list_elem_of_further|].
    destruct (getitem pos "positionAmt") as [v|]; cbn [rbind] in *; [|discriminate].
    rewrite A. cbn [rbind].
    destruct (float_ne amt float_zero).
    + destruct (P eq_refl) as [p ->]. cbn [rbind]. rewrite R. cbn [rbind]. eauto.
    + eauto.
Qed.

Lemma filter_symbol_Ok s positions l :
  filter_symbol s positions = Ok l ->
  l = List.filter (fun p => eq_str (get p "symbol") s) positions.
Proof.
  revert l. induction positions as [|p rest IH]; intros l; cbn [filter_symbol List.filter].
  - now intros [= <-].
  - unfold getitem, get, get_default.
    destruct (p !! "symbol") as [v|]; cbn [rbind default]; [|discriminate].
    destruct (filter_symbol s rest) as [rest'|]; cbn [rbind]; [|discriminate].
    intros [= <-]. now rewrite (IH rest' eq_refl).
Qed.

Lemma position_of_raw_Ok pos p :
  position_of_raw pos = Ok p ->
  is_Some (pos !! "symbol") /\
  exists amt, rbind (getitem pos "positionAmt") py_float = Ok amt.
Proof.
  unfold position_of_raw, getitem.
  destruct (pos !! "symbol"); cbn [rbind]; [|discriminate].
  destruct (pos !! "positionAmt") as [v|]; cbn [rbind]; [|discriminate].
  destruct (py_float v) as [amt|]; cbn [rbind]; [|discriminate].
  intros _. split; eauto.
Qed.

Lemma filter_symbol_total s positions :
  (forall pos, pos ∈ positions -> is_Some (pos !! "symbol")) ->
  exists l, filter_symbol s positions = Ok l.
Proof.
  induction positions as [|p rest IH]; intros W; cbn [filter_symbol]; [eauto|].
  destruct (W p (list_elem_of_here _ _)) as [v Hv].
  destruct IH as [rest' R]; [intros x Hx; apply W; now apply list_elem_of_further|].
  unfold getitem. rewrite Hv. cbn [rbind]. rewrite R. cbn [rbind]. eauto.
Qed.

Lemma get_positions_selected b symbol positions :
  futures_position_information (client b) (remote_calls b) = Ok positions ->
  snd (get_positions symbol b)
  = rbind (match symbol with
           | Some s => if String.eqb s "" then Ok positions else filter_symbol s positions
           | None => Ok positions
           end) active_positions_loop.
Proof.
  intros C. unfold get_positions, bind, remote, ret, lift. rewrite C.
  destruct symbol as [s|]; [|reflexivity].
  destruct (String.eqb s ""); [reflexivity|].
  now destruct (filter_symbol s positions).
Qed.

(** C9.  The list [get_positions] returns holds, in order, the entries of
    exactly the selected raw records whose [positionAmt] converts to a
    number other than zero; and it does return a list when every raw record
    converts. *)
Theorem active_positions_exact b symbol positions :
  futures_position_information (client b) (remote_calls b) = Ok positions ->
  (forall l, snd (get_positions symbol b) = Ok l ->
     Forall2 converts (List.filter amount_nonzero (selected symbol positions)) l) /\
  ((forall pos, pos ∈ positions -> exists p, converts pos p) ->
   exists l, snd (get_positions symbol b) = Ok l).
Proof.
  intros C. rewrite (get_positions_selected _ _ _ C). split.
  - intros l H. apply active_positions_loop_sound.
    unfold selected. destruct symbol as [s|]; [|exact H].
    destruct (String.eqb s ""); [exact H|].
    destruct (filter_symbol s positions) as [l'|] eqn:F; [|discriminate].
    now rewrite <- (filter_symbol_Ok _ _ _ F).
  - intros W.
    assert (T : forall ps, (forall pos, pos ∈ ps -> pos ∈ positions) ->
                exists l, active_positions_loop ps = Ok l).
    { intros ps Hps. apply active_positions_loop_total. intros pos Hpos.
      destruct (W pos (Hps pos Hpos)) as [p Hp].
      destruct (position_of_raw_Ok _ _ Hp) as [_ [amt A]]. exists amt. eauto. }
    destruct symbol as [s|]; [|now apply T].
    destruct (String.eqb s ""); [now apply T|].
    destruct (filter_symbol_total s positions) as [l' F].
    { intros pos Hpos. destruct (W pos Hpos) as [p Hp].
      now destruct (position_of_raw_Ok _ _ Hp). }
    rewrite F. cbn [rbind]. apply T. intros pos Hpos.
    rewrite (filter_symbol_Ok _ _ _ F) in Hpos.
    apply list_elem_of_In, List.filter_In in Hpos as [Hin _]. now apply list_elem_of_In.
Qed.

Lemma active_positions_exact_witness :
  List.filter amount_nonzero [raw_position "BTCUSDT" "0"; raw_position "ETHUSDT" "-0.5"]
    = [raw_position "ETHUSDT" "-0.5"] /\
  exists p,
    snd (get_positions None positions_bot) = Ok [p] /\
    converts (raw_position "ETHUSDT" "-0.5") p /\
    position_amount p = fl "-0.5".
Proof.
  split; [vm_compute; reflexivity|].
  destruct (active_positions_exact positions_bot None
              [raw_position "BTCUSDT" "0"; raw_position "ETHUSDT" "-0.5"] eq_refl)
    as [Sound Total].
  destruct Total as [l R].
  { intros pos Hpos. apply elem_of_cons in Hpos as [->|Hpos];
      [|apply list_elem_of_singleton in Hpos as ->]; eexists; vm_compute; reflexivity. }
  specialize (Sound l R). cbn [selected] in Sound.
  replace (List.filter amount_nonzero _) with [raw_position "ETHUSDT" "-0.5"] in Sound
    by (vm_compute; reflexivity).
  inversion Sound as [|x p xs ps Hp Hps]; subst. inversion Hps; subst.
  exists p. split; [exact R|]. split; [exact Hp|].
  assert (E : position_of_raw (raw_position "ETHUSDT" "-0.5")
              = Ok {| pos_symbol := PStr "ETHUSDT"; position_amount := fl "-0.5";
                      entry_price := fl "100.5"; mark_price := fl "101";
                      unrealized_pnl := fl "-0.25"; liquidation_price := fl "0";
                      leverage := 20; margin_type := PStr "cross";
                      position_side := PStr "BOTH" |}) by (vm_compute; reflexivity).
  unfold converts in Hp. rewrite E in Hp. injection Hp as <-. reflexivity.
Defined.

(** C8 (the code departs from the claim).  A raw record whose
    [stopPrice] is the string ["0"], as the exchange sends it, is formatted
    with [stop_price = 0.0] and not [None]: the test [order.get("stopPrice")]
    is on the string, and a non-empty string is true.  The integer [0] and a
    missing key do give [None]. *)
Theorem format_keeps_zero_stop_price_string :
  (exists r, _format_order_response (list_to_map [("orderId", PInt 1); ("stopPrice", PStr "0")]) = Ok r
             /\ stop_price r = Some float_zero) /\
  (exists r, _format_order_response (list_to_map [("orderId", PInt 1); ("stopPrice", PInt 0)]) = Ok r
             /\ stop_price r = None) /\
  (exists r, _format_order_response (list_to_map [("orderId", PInt 1)]) = Ok r
             /\ stop_price r = None).
Proof.
  repeat split; eexists; (split; [vm_compute; reflexivity|reflexivity]).
Qed.

(** Missing numeric fields read as zero, a missing stop price as [None]. *)
Lemma format_defaults order r :
  _format_order_response order = Ok r ->
  (order !! "price" = None -> price r = float_zero) /\
  (order !! "origQty" = None -> quantity r = float_zero) /\
  (order !! "executedQty" = None -> executed_qty r = float_zero) /\
  (order !! "avgPrice" = None -> avg_price r = float_zero) /\
  (order !! "stopPrice" = None -> stop_price r = None).
Proof.
  unfold _format_order_response, get, get_default.
  destruct (order !! "price") as [v1|]; cbn [default];
  destruct (order !! "origQty") as [v2|]; cbn [default];
  destruct (order !! "executedQty") as [v3|]; cbn [default];
  destruct (order !! "avgPrice") as [v4|]; cbn [default];
  destruct (order !! "stopPrice") as [v5|]; cbn [default truthy];
  repeat match goal with
  | |- context [py_float (PInt 0)] => change (py_float (PInt 0)) with (Ok float_zero)
  | |- context [py_float ?v] => destruct (py_float v); cbn [rbind]; [|discriminate]
  | |- context [truthy ?v] => destruct (truthy v); cbn [rbind]
  | _ => progress cbn [rbind]
  end;
  intros [= <-]; cbn; repeat split; intros; congruence.
Qed.


(** ** Worked examples *)

Lemma stop_limit_example_sent :
  orders_sent btc_bot
    (fst (place_stop_limit_order "BTCUSDT" BUY (fl "0.0019") (fl "123.456") (fl "130.02")
            "GTC" false btc_bot))
  = [stop_limit_example].
Proof. vm_compute. reflexivity. Qed.






Lemma set_leverage_range_witness :
  set_leverage "BTCUSDT" 0 btc_bot
    = (btc_bot, Err (ValueError "Leverage must be between 1 and 125")) /\
  set_leverage "BTCUSDT" 126 btc_bot
    = (btc_bot, Err (ValueError "Leverage must be between 1 and 125")) /\
  snd (set_leverage "BTCUSDT" 1 btc_bot)
    = Ok (list_to_map [("symbol", PStr "BTCUSDT"); ("leverage", PInt 1)]) /\
  snd (set_leverage "BTCUSDT" 125 btc_bot)
    = Ok (list_to_map [("symbol", PStr "BTCUSDT"); ("leverage", PInt 125)]).
Proof.
  split; [apply (proj1 (set_leverage_range btc_bot "BTCUSDT" 0)); lia|].
  split; [apply (proj1 (set_leverage_range btc_bot "BTCUSDT" 126)); lia|].
  split.
  - exact (proj2 (proj2 (set_leverage_range btc_bot "BTCUSDT" 1) ltac:(lia))).
  - exact (proj2 (proj2 (set_leverage_range btc_bot "BTCUSDT" 125) ltac:(lia))).
Defined.

Lemma lacks_filter_nil ftype : lacks_filter ftype [].
Proof. constructor. Qed.

Lemma missing_filter_or_error_passes_through_witness :
  (snd (_validate_quantity "NEWUSDT" (fl "0.0019") btc_bot)
     = (true, "No LOT_SIZE filter found", fl "0.0019")
   \/ snd (_validate_quantity "NEWUSDT" (fl "0.0019") btc_bot)
     = (true, "Validation skipped", fl "0.0019")) /\
  (snd (_validate_price "NEWUSDT" (fl "123.456") btc_bot)
     = (true, "No PRICE_FILTER found", fl "123.456")
   \/ snd (_validate_price "NEWUSDT" (fl "123.456") btc_bot)
     = (true, "Validation skipped", fl "123.456")) /\
  snd (_validate_quantity "BADUSDT" (fl "5000") btc_bot)
    = (true, "Validation skipped", fl "5000") /\
  snd (_validate_price "NOSUCH" (fl "123.456") btc_bot)
    = (true, "Validation skipped", fl "123.456").
Proof.
  split; [|split; [|split]].
  - exact (proj1 (missing_filter_or_error_passes_through btc_bot "NEWUSDT" (fl "0.0019"))
             [] eq_refl (lacks_filter_nil _)).
  - exact (proj1 (proj2 (missing_filter_or_error_passes_through btc_bot "NEWUSDT" (fl "123.456")))
             [] eq_refl (lacks_filter_nil _)).
  - apply (proj1 (proj2 (proj2
             (missing_filter_or_error_passes_through btc_bot "BADUSDT" (fl "5000"))))
             (KeyError "filterType")).
    vm_compute. reflexivity.
  - apply (proj2 (proj2 (proj2
             (missing_filter_or_error_passes_through btc_bot "NOSUCH" (fl "123.456"))))
             (ValueError "Symbol NOSUCH not found")).
    vm_compute. reflexivity.
Defined.

(** ** The examples of the specification *)

Example spec_quantity_example :
  snd (_validate_quantity "BTCUSDT" (fl "0.0019") btc_bot) = (true, "Valid", fl "0.001").
Proof. vm_compute. reflexivity. Qed.

Example spec_price_example :
  snd (_validate_price "BTCUSDT" (fl "123.456") btc_bot) = (true, "Valid", fl "123.4").
Proof. vm_compute. reflexivity. Qed.

Example str_float_examples :
  map str_float [fl "1"; fl "100"; fl "0.001"; fl "0.0001"; fl "1e-05"; fl "1e16";
                 fl "1.5e16"; fl "-0.5"; fl "0"]
  = ["1.0"; "100.0"; "0.001"; "0.0001"; "1e-05"; "1e+16"; "1.5e+16"; "-0.5"; "0.0"].
Proof. vm_compute. reflexivity. Qed.

Example quantize_takes_the_exponent :
  quantize_ROUND_DOWN (mkDecimal false 155 (-2)) (mkDecimal false 10 (-1))
  = Ok (mkDecimal false 15 (-1)).
Proof. vm_compute. reflexivity. Qed.

(** The symbol's metadata is fetched once and then served from the cache. *)
Example cache_example :
  remote_calls
    (fst (_validate_price "BTCUSDT" (fl "123.456")
            (fst (_validate_quantity "BTCUSDT" (fl "0.0019") btc_bot))))
  = [FuturesExchangeInfo].
Proof. vm_compute. reflexivity. Qed.

(** * Further properties of the code *)

Lemma grows_refl b : grows b b.
Proof. split; [reflexivity|]. split; [reflexivity|]. exists []. now rewrite app_nil_r. Qed.

Lemma grows_trans b1 b2 b3 : grows b1 b2 -> grows b2 b3 -> grows b1 b3.
Proof.
  intros (C1 & M1 & l1 & T1) (C2 & M2 & l2 & T2).
  split; [congruence|]. split; [etrans; eassumption|].
  exists (l1 ++ l2). now rewrite T2, T1, app_assoc.
Qed.

(** The state [get_symbol_info] leaves, case by case. *)
Lemma get_symbol_info_cases symbol b :
  (exists s, _symbol_info_cache b !! symbol = Some s /\
     get_symbol_info symbol b = (b, Ok s)) \/
  (_symbol_info_cache b !! symbol = None /\
   let b1 := {| client := client b; _symbol_info_cache := _symbol_info_cache b;
                remote_calls := remote_calls b ++ [FuturesExchangeInfo] |} in
   match futures_exchange_info (client b) (remote_calls b) with
   | Err e => get_symbol_info symbol b = (b1, Err e)
   | Ok symbols =>
       match List.find (fun s => String.eqb (si_symbol s) symbol) symbols with
       | Some s =>
           get_symbol_info symbol b
           = ({| client := client b;
                 _symbol_info_cache := <[symbol := s]> (_symbol_info_cache b);
                 remote_calls := remote_calls b ++ [FuturesExchangeInfo] |}, Ok s)
       | None =>
           get_symbol_info symbol b
           = (b1, Err (ValueError ("Symbol " +:+ symbol +:+ " not found")))
       end
   end).
Proof.
  unfold get_symbol_info.
  destruct (_symbol_info_cache b !! symbol) as [s|] eqn:C; [left; eauto|].
  right. split; [reflexivity|]. cbv zeta. unfold bind, remote, cache_symbol, ret, raise.
  destruct (futures_exchange_info (client b) (remote_calls b)) as [symbols|e]; [|reflexivity].
  destruct (List.find _ symbols); reflexivity.
Qed.

Lemma get_symbol_info_grows symbol b : grows b (fst (get_symbol_info symbol b)).
Proof.
  destruct (get_symbol_info_cases symbol b) as [(s & C & ->)|[C H]]; [apply grows_refl|].
  cbv zeta in H.
  destruct (futures_exchange_info (client b) (remote_calls b)) as [symbols|e].
  - destruct (List.find _ symbols) as [s|]; rewrite H; cbn [fst].
    + split; [reflexivity|]. split; [now apply insert_subseteq|]. eauto.
    + split; [reflexivity|]. split; [reflexivity|]. eauto.
  - rewrite H. cbn [fst]. split; [reflexivity|]. split; [reflexivity|]. eauto.
Qed.

Lemma _validate_quantity_state symbol q b :
  fst (_validate_quantity symbol q b) = fst (get_symbol_info symbol b).
Proof.
  unfold _validate_quantity, _validate_quantity_try, bind, lift.
  destruct (get_symbol_info symbol b) as [b1 [info|e]]; [|reflexivity].
  destruct (get_filters info); [|reflexivity].
  now destruct (_validate_quantity_loop _ _).
Qed.

Lemma _validate_price_state symbol p b :
  fst (_validate_price symbol p b) = fst (get_symbol_info symbol b).
Proof.
  unfold _validate_price, _validate_price_try, bind, lift.
  destruct (get_symbol_info symbol b) as [b1 [info|e]]; [|reflexivity].
  destruct (get_filters info); [|reflexivity].
  now destruct (_validate_price_loop _ _).
Qed.

(** A successful lookup leaves the symbol in the cache, so the next lookup
    answers from it. *)
Lemma get_symbol_info_again symbol b b1 s :
  get_symbol_info symbol b = (b1, Ok s) ->
  _symbol_info_cache b1 !! symbol = Some s /\
  get_symbol_info symbol b1 = (b1, Ok s).
Proof.
  intros H.
  assert (C1 : _symbol_info_cache b1 !! symbol = Some s).
  { destruct (get_symbol_info_cases symbol b) as [(s' & C & E)|[C E]].
    - rewrite E in H. now injection H as <- <-.
    - cbv zeta in E.
      destruct (futures_exchange_info (client b) (remote_calls b)) as [symbols|e];
        [|rewrite E in H; discriminate].
      destruct (List.find _ symbols) as [s'|]; rewrite E in H; [|discriminate].
      injection H as <- <-. cbn. apply lookup_insert_eq. }
  split; [exact C1|]. unfold get_symbol_info. now rewrite C1.
Qed.

(** X1.  A symbol that [get_symbol_info] has returned is in the cache
    afterwards: the next lookup answers from the cache with the same entry,
    and neither it nor a validator call changes the state again (no further
    remote call). *)
Theorem symbol_lookup_is_cached symbol b b1 s :
  get_symbol_info symbol b = (b1, Ok s) ->
  _symbol_info_cache b1 !! symbol = Some s /\
  get_symbol_info symbol b1 = (b1, Ok s) /\
  (forall q, fst (_validate_quantity symbol q b1) = b1) /\
  (forall p, fst (_validate_price symbol p b1) = b1).
Proof.
  intros H. destruct (get_symbol_info_again symbol b b1 s H) as [C1 G].
  split; [exact C1|]. split; [exact G|]. split; intros x.
  - now rewrite _validate_quantity_state, G.
  - now rewrite _validate_price_state, G.
Qed.

(** X2.  A lookup that raises leaves the cache as it was: the symbol
    was not cached, one metadata call was made, and the exception is that of
    the call or the [ValueError] for a symbol the answer does not list. *)
Theorem failed_lookup_leaves_cache symbol b b1 e :
  get_symbol_info symbol b = (b1, Err e) ->
  _symbol_info_cache b1 = _symbol_info_cache b /\
  _symbol_info_cache b !! symbol = None /\
  remote_calls b1 = remote_calls b ++ [FuturesExchangeInfo] /\
  (futures_exchange_info (client b) (remote_calls b) = Err e \/
   exists symbols,
     futures_exchange_info (client b) (remote_calls b) = Ok symbols /\
     Forall (fun s => si_symbol s <> symbol) symbols /\
     e = ValueError ("Symbol " +:+ symbol +:+ " not found")).
Proof.
  intros H.
  destruct (get_symbol_info_cases symbol b) as [(s' & C & E)|[C E]];
    [rewrite E in H; discriminate|].
  cbv zeta in E.
  destruct (futures_exchange_info (client b) (remote_calls b)) as [symbols|e'] eqn:A.
  - destruct (List.find _ symbols) as [s'|] eqn:F; rewrite E in H; [discriminate|].
    injection H as <- <-. cbn. repeat split; try assumption.
    right. exists symbols. split; [reflexivity|]. split; [|reflexivity].
    apply List.Forall_forall. intros s Hs Hn.
    apply (List.find_none _ _ F) in Hs. apply String.eqb_neq in Hs. contradiction.
  - rewrite E in H. injection H as <- <-. cbn. repeat split; try assumption. now left.
Qed.

Lemma get_symbol_info_named symbol b :
  cache_named b ->
  cache_named (fst (get_symbol_info symbol b)) /\
  forall s, snd (get_symbol_info symbol b) = Ok s -> si_symbol s = symbol.
Proof.
  intros N.
  destruct (get_symbol_info_cases symbol b) as [(s' & C & E)|[C E]].
  - rewrite E. cbn [fst snd]. split; [exact N|]. intros s [= <-]. now apply N.
  - cbv zeta in E.
    destruct (futures_exchange_info (client b) (remote_calls b)) as [symbols|e'].
    + destruct (List.find _ symbols) as [s'|] eqn:F; rewrite E; cbn [fst snd].
      * apply List.find_some in F as [_ F]. apply String.eqb_eq in F. split.
        -- intros k s. cbn. rewrite lookup_insert. case_decide.
           ++ intros [= <-]. congruence.
           ++ apply N.
        -- now intros s [= <-].
      * split; [exact N|discriminate].
    + rewrite E. cbn [fst snd]. split; [exact N|discriminate].
Qed.

Lemma submit_order_grows params b : grows b (fst (submit_order params b)).
Proof.
  unfold submit_order, bind, remote, lift.
  destruct (futures_create_order _ _ _) as [order|e]; cbn [fst].
  - destruct (log_order_result_args order); cbn [fst];
      (split; [reflexivity|]; split; [reflexivity|]; eauto).
  - split; [reflexivity|]. split; [reflexivity|]. eauto.
Qed.

Lemma submit_order_cache params b :
  _symbol_info_cache (fst (submit_order params b)) = _symbol_info_cache b.
Proof.
  unfold submit_order, bind, remote, lift.
  destruct (futures_create_order _ _ _) as [order|e]; cbn [fst]; [|reflexivity].
  now destruct (log_order_result_args order).
Qed.

Lemma submit_order_run params b :
  submit_order params b
  = ({| client := client b; _symbol_info_cache := _symbol_info_cache b;
        remote_calls := remote_calls b ++ [FuturesCreateOrder params] |},
     answer_result (futures_create_order (client b) (remote_calls b) params)).
Proof.
  unfold submit_order, answer_result, bind, remote, lift.
  destruct (futures_create_order _ _ _) as [order|e]; cbn [rbind]; [|reflexivity].
  now destruct (log_order_result_args order).
Qed.

Ltac pipeline_step :=
  match goal with
  | |- context [_validate_quantity ?s ?q ?b] =>
      destruct (_validate_quantity s q b) as [? [[[] ?] ?]]; cbn [negb run_checks run_check]
  | |- context [_validate_price ?s ?p ?b] =>
      destruct (_validate_price s p b) as [? [[[] ?] ?]]; cbn [negb run_checks run_check]
  end.

(** The five methods are one pipeline: the validator calls in order, then
    the submission. *)
Lemma place_pipeline r b :
  place r b =
  match run_checks (request_symbol r) (checks r) b with
  | (b', inl msg) => (b', Err (ValueError msg))
  | (b', inr adjs) => submit_order (request_params r adjs) b'
  end.
Proof.
  destruct r as [symbol side q ro|symbol side q p tif ro|symbol side q p sp tif ro
                |symbol side q sp ro|symbol side q sp price ro];
    cbn [place request_symbol checks run_checks run_check];
    [unfold place_market_order|unfold place_limit_order|unfold place_stop_limit_order
    |unfold place_stop_market_order|unfold place_take_profit_order];
    unfold bind, validated, raise.
  - repeat pipeline_step; reflexivity.
  - repeat pipeline_step; reflexivity.
  - repeat pipeline_step; reflexivity.
  - repeat pipeline_step; reflexivity.
  - unfold request_params, request_type, request_time_in_force, checked_fields.
    destruct (price_given price); repeat pipeline_step; reflexivity.
Qed.

Lemma fetches_only_refl b : fetches_only b b.
Proof. exists []. split; [now rewrite app_nil_r|constructor]. Qed.

Lemma fetches_only_trans b1 b2 b3 :
  fetches_only b1 b2 -> fetches_only b2 b3 -> fetches_only b1 b3.
Proof.
  intros (l1 & T1 & F1) (l2 & T2 & F2). exists (l1 ++ l2).
  split; [now rewrite T2, T1, app_assoc|now apply Forall_app].
Qed.

Lemma get_symbol_info_fetches symbol b : fetches_only b (fst (get_symbol_info symbol b)).
Proof.
  destruct (get_symbol_info_cases symbol b) as [(s & C & ->)|[C H]];
    [apply fetches_only_refl|].
  cbv zeta in H. exists [FuturesExchangeInfo].
  destruct (futures_exchange_info (client b) (remote_calls b)) as [symbols|e].
  - destruct (List.find _ symbols) as [s|]; rewrite H; cbn [fst];
      (split; [reflexivity|repeat constructor]).
  - rewrite H. cbn [fst]. split; [reflexivity|repeat constructor].
Qed.

Lemma run_check_state symbol c b :
  fst (run_check symbol c b) = fst (get_symbol_info symbol b).
Proof. destruct c; [apply _validate_quantity_state|apply _validate_price_state]. Qed.

Lemma run_checks_spec symbol cs b :
  grows b (fst (run_checks symbol cs b)) /\
  fetches_only b (fst (run_checks symbol cs b)) /\
  forall adjs, snd (run_checks symbol cs b) = inr adjs -> length adjs = length cs.
Proof.
  revert b. induction cs as [|c rest IH]; intros b; cbn [run_checks].
  - cbn [fst snd]. split; [apply grows_refl|]. split; [apply fetches_only_refl|].
    now intros adjs [= <-].
  - pose proof (run_check_state symbol c b) as S.
    pose proof (get_symbol_info_grows symbol b) as G.
    pose proof (get_symbol_info_fetches symbol b) as F.
    rewrite <- S in G, F.
    destruct (run_check symbol c b) as [b1 [[ok msg] adj]]. cbn [fst] in G, F.
    destruct ok; [|cbn [fst snd]; split; [exact G|split; [exact F|discriminate]]].
    destruct (IH b1) as (G2 & F2 & L2).
    destruct (run_checks symbol rest b1) as [b2 [msg'|adjs]]; cbn [fst snd] in *.
    + split; [eapply grows_trans; eassumption|].
      split; [eapply fetches_only_trans; eassumption|discriminate].
    + split; [eapply grows_trans; eassumption|].
      split; [eapply fetches_only_trans; eassumption|].
      intros ? [= <-]. cbn. f_equal. now apply L2.
Qed.

Lemma fetches_hold_no_order l :
  Forall (eq FuturesExchangeInfo) l -> omap order_of l = [].
Proof. induction 1 as [|c l <- _ IH]; [reflexivity|exact IH]. Qed.

Lemma fetches_only_no_order b b' : fetches_only b b' -> orders_sent b b' = [].
Proof.
  intros (l & T & F). rewrite (steps_orders_sent b b' l T).
  now apply fetches_hold_no_order.
Qed.

(** What an accepted call leaves: the submission after the fetches. *)
Lemma place_accepted r b b' adjs :
  run_checks (request_symbol r) (checks r) b = (b', inr adjs) ->
  place r b = submit_order (request_params r adjs) b' /\
  client b' = client b /\
  fetches_only b b' /\
  length adjs = length (checks r) /\
  orders_sent b (fst (place r b)) = [request_params r adjs].
Proof.
  intros H. rewrite place_pipeline, H.
  destruct (run_checks_spec (request_symbol r) (checks r) b) as (G & F & L).
  rewrite H in G, F, L. cbn [fst snd] in G, F, L.
  destruct G as (C & _ & _).
  split; [reflexivity|]. split; [exact C|]. split; [exact F|].
  split; [now apply L|].
  rewrite submit_order_run. cbn [fst].
  destruct F as (l & T & F).
  rewrite (steps_orders_sent b _ (l ++ [FuturesCreateOrder (request_params r adjs)])).
  - now rewrite omap_app, (fetches_hold_no_order l F).
  - unfold steps. cbn. now rewrite T, app_assoc.
Qed.

(** What a refused call leaves: fetches only. *)
Lemma place_refused r b b' msg :
  run_checks (request_symbol r) (checks r) b = (b', inl msg) ->
  place r b = (b', Err (ValueError msg)) /\ fetches_only b b'.
Proof.
  intros H. rewrite place_pipeline, H. split; [reflexivity|].
  destruct (run_checks_spec (request_symbol r) (checks r) b) as (_ & F & _).
  now rewrite H in F.
Qed.

(** X3.  When a validator refuses a field, the order method raises
    [ValueError] with the validator's message at once: up to there only
    metadata calls were made, and no order is sent. *)
Theorem refused_order_is_not_sent r b b' msg :
  run_checks (request_symbol r) (checks r) b = (b', inl msg) ->
  place r b = (b', Err (ValueError msg)) /\
  fetches_only b b' /\ orders_sent b b' = [].
Proof.
  intros H. destruct (place_refused r b b' msg H) as [P F].
  split; [exact P|]. split; [exact F|now apply fetches_only_no_order].
Qed.

(** X4.  When every validator accepts, the order method sends
    exactly one order, as its last remote call and after metadata calls only;
    the request is built from the adjusted values, and the method returns the
    formatted answer of the exchange, or the exception of the call. *)
Theorem accepted_order_is_sent_once r b b' adjs :
  run_checks (request_symbol r) (checks r) b = (b', inr adjs) ->
  let params := request_params r adjs in
  let answer := futures_create_order (client b) (remote_calls b') params in
  remote_calls (fst (place r b)) = remote_calls b' ++ [FuturesCreateOrder params] /\
  fetches_only b b' /\
  orders_sent b (fst (place r b)) = [params] /\
  snd (place r b) = answer_result answer /\
  (forall e, answer = Err e -> snd (place r b) = Err e).
Proof.
  intros H. cbv zeta.
  destruct (place_accepted r b b' adjs H) as (P & C & F & _ & S).
  rewrite S, P, submit_order_run, C. cbn [fst snd].
  split; [reflexivity|]. split; [exact F|]. split; [reflexivity|].
  split; [reflexivity|]. intros e ->. reflexivity.
Qed.

(** X5.  The order has been sent when the answer is
    read: an answer without ["orderId"] raises [KeyError] for it, and one
    with ["orderId"] but without ["status"] raises [KeyError] for that, the
    sent order staying in the trace. *)
Theorem answer_without_id_raises_after_sending r b b' adjs order :
  run_checks (request_symbol r) (checks r) b = (b', inr adjs) ->
  futures_create_order (client b) (remote_calls b') (request_params r adjs) = Ok order ->
  (order !! "orderId" = None ->
     snd (place r b) = Err (KeyError "orderId")) /\
  (is_Some (order !! "orderId") -> order !! "status" = None ->
     snd (place r b) = Err (KeyError "status")) /\
  orders_sent b (fst (place r b)) = [request_params r adjs].
Proof.
  intros H A.
  destruct (place_accepted r b b' adjs H) as (P & C & _ & _ & S).
  rewrite S, P, submit_order_run, C, A. cbn [snd].
  unfold answer_result, log_order_result_args, getitem. cbn [rbind].
  split; [intros ->; reflexivity|]. split; [|reflexivity].
  intros [v ->] ->. reflexivity.
Qed.

Lemma place_sent_cases r b :
  orders_sent b (fst (place r b)) = [] \/
  exists adjs, length adjs = length (checks r) /\
    orders_sent b (fst (place r b)) = [request_params r adjs].
Proof.
  destruct (run_checks (request_symbol r) (checks r) b) as [b' [msg|adjs]] eqn:H.
  - left. destruct (place_refused r b b' msg H) as (-> & F).
    now apply fetches_only_no_order.
  - right. exists adjs.
    destruct (place_accepted r b b' adjs H) as (_ & _ & _ & L & S). now split.
Qed.

Ltac exact_length adjs L :=
  repeat (destruct adjs as [|? adjs]; [discriminate L|]);
  destruct adjs; [|discriminate L].

(** X6.  Every request an order method sends carries the method's
    symbol, side, order type and [reduceOnly] flag, a [timeInForce] exactly
    for the limit variants, and no field outside the eight the methods
    know. *)
Theorem sent_request_fixed_fields r b params :
  params ∈ orders_sent b (fst (place r b)) ->
  params !! "symbol" = Some (PStr (request_symbol r)) /\
  params !! "side" = Some (PStr (OrderSide_value (request_side r))) /\
  params !! "type" = Some (PStr (request_type r)) /\
  params !! "reduceOnly" = Some (PBool (request_reduce_only r)) /\
  params !! "timeInForce" = PStr <$> request_time_in_force r /\
  (forall k, is_Some (params !! k) ->
     k ∈ ["symbol"; "side"; "type"; "quantity"; "price"; "stopPrice";
          "timeInForce"; "reduceOnly"]).
Proof.
  intros H. destruct (place_sent_cases r b) as [E|(adjs & L & E)]; rewrite E in H.
  - apply elem_of_nil in H. contradiction.
  - apply list_elem_of_singleton in H. subst params.
    assert (K : forall (m : record) k (keys : list string),
              (forall j, j ∉ keys -> m !! j = None) -> is_Some (m !! k) -> k ∈ keys).
    { intros m k keys Hm [v Hv]. destruct (decide (k ∈ keys)) as [|N]; [assumption|].
      rewrite (Hm k N) in Hv. discriminate. }
    destruct r as [symbol side q ro|symbol side q p tif ro|symbol side q p sp tif ro
                  |symbol side q sp ro|symbol side q sp price ro];
      cbn [checks length] in L.
    5: unfold request_params, request_type, request_time_in_force, checked_fields;
       destruct (price_given price); cbn [length] in L.
    all: exact_length adjs L.
    all: repeat (split; [reflexivity|]).
    all: intros k; apply K; intros j Hj;
      repeat (apply not_elem_of_cons in Hj as [? Hj]);
      unfold request_params; cbn;
      repeat (rewrite lookup_insert_ne by congruence); reflexivity.
Qed.

Lemma place_state r b :
  grows b (fst (place r b)) /\
  (cache_named b -> cache_named (fst (place r b))).
Proof.
  rewrite place_pipeline.
  assert (N : forall cs b0, cache_named b0 ->
                cache_named (fst (run_checks (request_symbol r) cs b0))).
  { induction cs as [|c rest IH]; intros b0 N0; cbn [run_checks]; [exact N0|].
    pose proof (run_check_state (request_symbol r) c b0) as S.
    pose proof (proj1 (get_symbol_info_named (request_symbol r) b0 N0)) as N1.
    rewrite <- S in N1.
    destruct (run_check (request_symbol r) c b0) as [b1 [[ok msg] adj]]. cbn [fst] in N1.
    destruct ok; [|exact N1].
    specialize (IH b1 N1).
    now destruct (run_checks (request_symbol r) rest b1) as [b2 [?|?]]. }
  destruct (run_checks_spec (request_symbol r) (checks r) b) as (G & _ & _).
  specialize (N (checks r) b).
  destruct (run_checks (request_symbol r) (checks r) b) as [b' [msg|adjs]]; cbn [fst] in *.
  - split; assumption.
  - split.
    + eapply grows_trans; [exact G|apply submit_order_grows].
    + intros N0. intros k s. rewrite submit_order_cache. now apply N.
Qed.

Lemma get_positions_state symbol b :
  grows b (fst (get_positions symbol b)) /\
  _symbol_info_cache (fst (get_positions symbol b)) = _symbol_info_cache b.
Proof.
  unfold get_positions, bind, remote, ret, lift.
  destruct (futures_position_information _ _) as [positions|e]; cbn [fst].
  - destruct symbol as [s|]; [destruct (String.eqb s "")|]; cbn [fst];
      try destruct (filter_symbol s positions); cbn [fst];
      (split; [|reflexivity]); (split; [reflexivity|]; split; [reflexivity|]; eauto).
  - split; [|reflexivity]. split; [reflexivity|]. split; [reflexivity|]. eauto.
Qed.

Lemma set_leverage_state symbol lev b :
  grows b (fst (set_leverage symbol lev b)) /\
  _symbol_info_cache (fst (set_leverage symbol lev b)) = _symbol_info_cache b.
Proof.
  unfold set_leverage, raise, remote. destruct (_ || _); cbn [fst].
  - split; [apply grows_refl|reflexivity].
  - split; [|reflexivity]. split; [reflexivity|]. split; [reflexivity|]. eauto.
Qed.

(** X7.  No operation of the bot replaces the client, forgets a cached
    symbol or rewrites the trace of remote calls: lookups, validators, the
    five order methods, [get_positions] and [set_leverage] only extend the
    cache and the trace. *)
Theorem operations_only_add b symbol v r sym lev :
  grows b (fst (get_symbol_info symbol b)) /\
  grows b (fst (_validate_quantity symbol v b)) /\
  grows b (fst (_validate_price symbol v b)) /\
  grows b (fst (place r b)) /\
  grows b (fst (get_positions sym b)) /\
  grows b (fst (set_leverage symbol lev b)).
Proof.
  rewrite _validate_quantity_state, _validate_price_state.
  do 3 (split; [apply get_symbol_info_grows|]).
  split; [apply place_state|]. split; [apply get_positions_state|apply set_leverage_state].
Qed.

Lemma new_bot_named c : cache_named (new_bot c).
Proof. intros k s H. cbn in H. rewrite lookup_empty in H. discriminate. Qed.

(** X8.  The cache files every entry under its own symbol, and every
    operation keeps it so; a lookup that returns, returns the entry of the
    symbol asked for. *)
Theorem cache_stays_named b symbol v r sym lev :
  cache_named b ->
  (forall s, snd (get_symbol_info symbol b) = Ok s -> si_symbol s = symbol) /\
  cache_named (fst (get_symbol_info symbol b)) /\
  cache_named (fst (_validate_quantity symbol v b)) /\
  cache_named (fst (_validate_price symbol v b)) /\
  cache_named (fst (place r b)) /\
  cache_named (fst (get_positions sym b)) /\
  cache_named (fst (set_leverage symbol lev b)).
Proof.
  intros N. rewrite _validate_quantity_state, _validate_price_state.
  destruct (get_symbol_info_named symbol b N) as [N1 S].
  split; [exact S|]. do 3 (split; [exact N1|]).
  split; [now apply place_state|]. split; intros k s.
  - rewrite (proj2 (get_positions_state sym b)). apply N.
  - rewrite (proj2 (set_leverage_state symbol lev b)). apply N.
Qed.

Lemma quantity_outcome_in_bounds mn mx st v :
  ~ flt v mn -> ~ flt mx v ->
  exists msg, or_skip v (quantity_outcome mn mx st v) = (true, msg, adjusted_of v st).
Proof.
  intros H1 H2. apply float_lt_false in H1. apply float_gt_false in H2.
  unfold quantity_outcome, adjusted_of. rewrite H1, H2.
  destruct (quantize_to_step v st); cbn [rbind or_skip]; eauto.
Qed.

Lemma price_outcome_in_bounds mn mx st v :
  ~ flt v mn -> ~ (flt float_zero mx /\ flt mx v) ->
  exists msg, or_skip v (price_outcome mn mx st v) = (true, msg, adjusted_of v st).
Proof.
  intros H1 H2. apply float_lt_false in H1.
  assert (G : float_gt mx float_zero && float_gt v mx = false).
  { apply not_true_iff_false. intros G. apply andb_true_iff in G as [G1 G2].
    apply float_gt_iff in G1, G2. auto. }
  unfold price_outcome, adjusted_of. rewrite H1, G.
  destruct (quantize_to_step v st); cbn [rbind or_skip]; eauto.
Qed.

Lemma adjusted_of_bounds v st :
  f_sign v = false ->
  (float_val (adjusted_of v st) <= float_val v)%Q /\
  (float_val v < float_val (adjusted_of v st) + pow10 (step_exponent st))%Q /\
  (on_grid (step_exponent st) (adjusted_of v st) \/ adjusted_of v st = v).
Proof.
  intros Hs. unfold adjusted_of.
  destruct (quantize_to_step v st) as [adj|e] eqn:Q.
  - destruct (quantize_to_step_rounds_down v st adj Hs Q) as (G & B1 & B2).
    split; [exact B1|]. split; [exact B2|]. left. exact G.
  - split; [apply Qle_refl|]. split; [|now right].
    rewrite <- (Qplus_0_r (float_val v)) at 1. apply Qplus_lt_r, pow10_pos.
Qed.

Lemma multiple_is_on_grid st x : multiple_of st x -> on_grid (step_exponent st) x.
Proof.
  intros H. destruct (multiple_on_grid st x H) as [k Hk]. exists k.
  destruct (Decimal_of_str_float_spec x) as (_ & V & _). cbv zeta in V.
  now rewrite <- V.
Qed.

(** A bound on the grid that is not above the value is not above the
    adjusted value. *)
Lemma adjusted_of_keeps_minimum v st mn :
  f_sign v = false -> on_grid (step_exponent st) mn ->
  ~ flt v mn -> ~ flt (adjusted_of v st) mn.
Proof.
  intros Hs [k Hk] Hmin.
  destruct (adjusted_of_bounds v st Hs) as (_ & B2 & [[j Hj]| ->]); [|exact Hmin].
  unfold flt in *. apply Qle_not_lt. apply Qnot_lt_le in Hmin.
  rewrite Hk, Hj. rewrite Hk in Hmin. rewrite Hj in B2.
  apply Qmult_le_compat_r; [|apply Qlt_le_weak, pow10_pos].
  rewrite <- Zle_Qle.
  assert (L : (inject_Z k * pow10 (step_exponent st)
               < (inject_Z j + 1) * pow10 (step_exponent st))%Q).
  { eapply Qle_lt_trans; [exact Hmin|].
    rewrite Qmult_plus_distr_l, Qmult_1_l. exact B2. }
  apply Qmult_lt_r in L; [|apply pow10_pos].
  change 1%Q with (inject_Z 1) in L. rewrite <- inject_Z_plus, <- Zlt_Qlt in L. lia.
Qed.

Lemma mkfloat_canonical s m e : canonical (mkfloat s m e).
Proof.
  unfold canonical, float_norm, mkfloat.
  destruct (normalize m e) as [m' e'] eqn:N. cbn [f_sign f_man f_exp].
  rewrite (normalize_unique s m' e' m e), N; [reflexivity|].
  now apply normalize_val.
Qed.

Lemma quantize_to_step_on_grid value step adj :
  on_grid (step_exponent step) value ->
  quantize_to_step value step = Ok adj ->
  adj = float_norm value.
Proof.
  intros [k Hk] H. apply quantize_to_step_Ok in H. subst adj.
  destruct (Decimal_of_str_float_spec value) as (Sx & Vx & _). cbv zeta in *.
  rewrite <- Vx in Hk.
  pose proof (rescale_down_exact _ _ _ Hk) as R. rewrite Vx in R.
  unfold float_of_Decimal, float_norm, mkfloat.
  rewrite rescale_down_sign, Sx.
  erewrite normalize_unique; [reflexivity|].
  unfold Decimal_val, float_val in R. rewrite rescale_down_sign, Sx in R. exact R.
Qed.

Lemma quantize_to_step_canonical value step adj :
  quantize_to_step value step = Ok adj -> canonical adj.
Proof.
  intros H. apply quantize_to_step_Ok in H. subst adj. apply mkfloat_canonical.
Qed.

(** Adjusting twice is adjusting once. *)
Lemma adjusted_of_idempotent v st :
  f_sign v = false ->
  adjusted_of (adjusted_of v st) st = adjusted_of v st.
Proof.
  intros Hs. unfold adjusted_of at 2 3.
  destruct (quantize_to_step v st) as [adj|e] eqn:Q.
  - destruct (quantize_to_step_rounds_down v st adj Hs Q) as (G & _ & _).
    unfold adjusted_of. destruct (quantize_to_step adj st) as [adj2|e2] eqn:Q2; [|reflexivity].
    rewrite (quantize_to_step_on_grid adj st adj2 G Q2).
    exact (quantize_to_step_canonical _ _ _ Q).
  - unfold adjusted_of. now rewrite Q.
Qed.

(** The filters known for a symbol are still known after a lookup. *)
Lemma known_filters_stable symbol b filters :
  known_filters symbol b = Some filters ->
  known_filters symbol (fst (get_symbol_info symbol b)) = Some filters.
Proof.
  unfold known_filters. intros H.
  destruct (get_symbol_info symbol b) as [b1 [s|e]] eqn:G; [|discriminate].
  cbn [fst]. destruct (get_symbol_info_again symbol b b1 s G) as (_ & ->). exact H.
Qed.

Lemma _validate_quantity_in_bounds b symbol filters mn mx st v :
  known_filters symbol b = Some filters ->
  lot_size_rule filters = Some (mn, mx, st) ->
  ~ flt v mn -> ~ flt mx v ->
  exists msg, snd (_validate_quantity symbol v b) = (true, msg, adjusted_of v st).
Proof.
  intros K R H1 H2.
  rewrite (_validate_quantity_known _ _ _ _ K), (_validate_quantity_loop_rule _ _ _ _ _ R).
  now apply quantity_outcome_in_bounds.
Qed.

Lemma _validate_price_in_bounds b symbol filters mn mx st v :
  known_filters symbol b = Some filters ->
  price_rule filters = Some (mn, mx, st) ->
  ~ flt v mn -> ~ (flt float_zero mx /\ flt mx v) ->
  exists msg, snd (_validate_price symbol v b) = (true, msg, adjusted_of v st).
Proof.
  intros K R H1 H2.
  rewrite (_validate_price_known _ _ _ _ K), (_validate_price_loop_rule _ _ _ _ _ R).
  now apply price_outcome_in_bounds.
Qed.

Lemma adjusted_of_within_step v st :
  f_sign v = false -> (0 < float_val st)%Q ->
  (float_val (adjusted_of v st) <= float_val v)%Q /\
  (float_val v < float_val (adjusted_of v st) + float_val st)%Q.
Proof.
  intros Hs Hst. destruct (adjusted_of_bounds v st Hs) as (B1 & B2 & _).
  split; [exact B1|]. eapply Qlt_le_trans; [exact B2|].
  apply Qplus_le_r. now apply step_grid_le_step.
Qed.

(** X9.  For a non-negative value within the bounds of the rule and a
    positive step, both validators accept, and the adjusted value is at most
    the value and less than one step below it. *)
Theorem accepted_value_rounds_down b symbol filters mn mx st v :
  known_filters symbol b = Some filters ->
  f_sign v = false -> (0 < float_val st)%Q -> ~ flt v mn ->
  (lot_size_rule filters = Some (mn, mx, st) -> ~ flt mx v ->
   exists msg adj,
     snd (_validate_quantity symbol v b) = (true, msg, adj) /\
     (float_val adj <= float_val v)%Q /\
     (float_val v < float_val adj + float_val st)%Q) /\
  (price_rule filters = Some (mn, mx, st) -> ~ (flt float_zero mx /\ flt mx v) ->
   exists msg adj,
     snd (_validate_price symbol v b) = (true, msg, adj) /\
     (float_val adj <= float_val v)%Q /\
     (float_val v < float_val adj + float_val st)%Q).
Proof.
  intros K Hs Hst H1.
  pose proof (adjusted_of_within_step v st Hs Hst) as B.
  split; intros R H2.
  - destruct (_validate_quantity_in_bounds b symbol filters mn mx st v K R H1 H2) as [msg E].
    exists msg, (adjusted_of v st). now split.
  - destruct (_validate_price_in_bounds b symbol filters mn mx st v K R H1 H2) as [msg E].
    exists msg, (adjusted_of v st). now split.
Qed.

(** X10.  When the minimum of the rule is a multiple of its step, the adjusted
    value of an accepted non-negative value is still within the bounds. *)
Theorem accepted_value_stays_in_bounds b symbol filters mn mx st v :
  known_filters symbol b = Some filters ->
  f_sign v = false -> multiple_of st mn -> ~ flt v mn ->
  (lot_size_rule filters = Some (mn, mx, st) -> ~ flt mx v ->
   exists msg adj,
     snd (_validate_quantity symbol v b) = (true, msg, adj) /\
     ~ flt adj mn /\ ~ flt mx adj) /\
  (price_rule filters = Some (mn, mx, st) -> ~ (flt float_zero mx /\ flt mx v) ->
   exists msg adj,
     snd (_validate_price symbol v b) = (true, msg, adj) /\
     ~ flt adj mn /\ ~ (flt float_zero mx /\ flt mx adj)).
Proof.
  intros K Hs Hm H1.
  pose proof (adjusted_of_keeps_minimum v st mn Hs (multiple_is_on_grid _ _ Hm) H1) as L.
  destruct (adjusted_of_bounds v st Hs) as (B1 & _ & _).
  split; intros R H2.
  - destruct (_validate_quantity_in_bounds b symbol filters mn mx st v K R H1 H2) as [msg E].
    exists msg, (adjusted_of v st). split; [exact E|]. split; [exact L|].
    unfold flt in *. intros U. apply H2. eapply Qlt_le_trans; eassumption.
  - destruct (_validate_price_in_bounds b symbol filters mn mx st v K R H1 H2) as [msg E].
    exists msg, (adjusted_of v st). split; [exact E|]. split; [exact L|].
    unfold flt in *. intros [U0 U]. apply H2. split; [exact U0|].
    eapply Qlt_le_trans; eassumption.
Qed.

(** X11.  Validating an adjusted value again returns it unchanged. *)
Theorem validation_is_idempotent b symbol filters mn mx st v :
  known_filters symbol b = Some filters ->
  f_sign v = false -> multiple_of st mn -> ~ flt v mn ->
  (lot_size_rule filters = Some (mn, mx, st) -> ~ flt mx v ->
   exists msg msg' adj,
     snd (_validate_quantity symbol v b) = (true, msg, adj) /\
     snd (_validate_quantity symbol adj (fst (_validate_quantity symbol v b)))
     = (true, msg', adj)) /\
  (price_rule filters = Some (mn, mx, st) -> ~ (flt float_zero mx /\ flt mx v) ->
   exists msg msg' adj,
     snd (_validate_price symbol v b) = (true, msg, adj) /\
     snd (_validate_price symbol adj (fst (_validate_price symbol v b)))
     = (true, msg', adj)).
Proof.
  intros K Hs Hm H1.
  pose proof (adjusted_of_keeps_minimum v st mn Hs (multiple_is_on_grid _ _ Hm) H1) as L.
  destruct (adjusted_of_bounds v st Hs) as (B1 & _ & _).
  pose proof (known_filters_stable symbol b filters K) as K1.
  pose proof (adjusted_of_idempotent v st Hs) as I.
  split; intros R H2.
  - destruct (_validate_quantity_in_bounds b symbol filters mn mx st v K R H1 H2) as [msg E].
    rewrite _validate_quantity_state.
    destruct (_validate_quantity_in_bounds _ symbol filters mn mx st (adjusted_of v st)
                K1 R L) as [msg' E'].
    { unfold flt in *. intros U. apply H2. eapply Qlt_le_trans; eassumption. }
    exists msg, msg', (adjusted_of v st). split; [exact E|]. now rewrite E', I.
  - destruct (_validate_price_in_bounds b symbol filters mn mx st v K R H1 H2) as [msg E].
    rewrite _validate_price_state.
    destruct (_validate_price_in_bounds _ symbol filters mn mx st (adjusted_of v st)
                K1 R L) as [msg' E'].
    { unfold flt in *. intros [U0 U]. apply H2. split; [exact U0|].
      eapply Qlt_le_trans; eassumption. }
    exists msg, msg', (adjusted_of v st). split; [exact E|]. now rewrite E', I.
Qed.



Lemma get_balance_loop_skip asset pre rest :
  Forall (entry_of_other asset) pre ->
  get_balance_loop asset (pre ++ rest) = get_balance_loop asset rest.
Proof.
  induction 1 as [|entry pre (v & E & N) _ IH]; [reflexivity|].
  cbn [app get_balance_loop]. unfold getitem. rewrite E. cbn [rbind]. now rewrite N.
Qed.

(** X13.  An asset no entry carries has the zero balance; otherwise the first
    entry of the asset decides, and what follows it is never read. *)
Theorem first_balance_entry_decides asset pre :
  Forall (entry_of_other asset) pre ->
  get_balance asset (Ok pre) = Ok (zero_balance asset) /\
  forall entry post, entry_of asset entry ->
    get_balance asset (Ok (pre ++ entry :: post)) = balance_of_raw asset entry.
Proof.
  intros H. unfold get_balance. cbn [rbind]. split.
  - rewrite <- (app_nil_r pre). now rewrite get_balance_loop_skip.
  - intros entry post (v & E & Y). rewrite get_balance_loop_skip by assumption.
    cbn [get_balance_loop]. unfold getitem. rewrite E. cbn [rbind]. now rewrite Y.
Qed.

(** X14.  A balance that is returned is for the asset asked for, and is either
    the zero balance or the conversion of an entry of that asset. *)
Theorem returned_balance_is_of_asset asset answer r :
  get_balance asset answer = Ok r ->
  bal_asset r = asset /\
  (r = zero_balance asset \/
   exists balances entry,
     answer = Ok balances /\ entry ∈ balances /\ entry_of asset entry /\
     balance_of_raw asset entry = Ok r).
Proof.
  unfold get_balance. destruct answer as [balances|e]; [|discriminate]. cbn [rbind].
  intros H.
  assert (G : bal_asset r = asset /\
              (r = zero_balance asset \/
               exists entry, entry ∈ balances /\ entry_of asset entry /\
                 balance_of_raw asset entry = Ok r)).
  { induction balances as [|entry rest IH]; cbn [get_balance_loop] in H.
    - injection H as <-. split; [reflexivity|now left].
    - unfold getitem in H at 1. destruct (entry !! "asset") as [v|] eqn:E; [|discriminate].
      cbn [rbind] in H. destruct (eq_str v asset) eqn:Y.
      + split.
        * unfold balance_of_raw in H.
          repeat match type of H with
                 | rbind ?c _ = Ok _ => destruct c; cbn [rbind] in H; [|discriminate]
                 end.
          now injection H as <-.
        * right. exists entry. split; [apply list_elem_of_here|].
          split; [exists v; now split|exact H].
      + destruct (IH H) as [A [Z|(entry' & I & M & B)]]; (split; [exact A|]).
        * now left.
        * right. exists entry'. split; [now apply list_elem_of_further|now split]. }
  destruct G as [A [Z|(entry & I & M & B)]]; (split; [exact A|]); [now left|].
  right. exists balances, entry. now repeat split.
Qed.

Lemma format_orders_Forall2 orders rs :
  format_orders orders = Ok rs <->
  Forall2 (fun o r => _format_order_response o = Ok r) orders rs.
Proof.
  revert rs. induction orders as [|o rest IH]; intros rs; cbn [format_orders].
  - split; [intros [= <-]; constructor|intros H; now inversion H].
  - destruct (_format_order_response o) as [r|e] eqn:F; cbn [rbind].
    + destruct (format_orders rest) as [rs'|e'] eqn:R; cbn [rbind].
      * split.
        -- intros [= <-]. constructor; [exact F|]. now apply IH.
        -- intros H. inversion H as [|? r' ? rs'' F' R' ]; subst.
           apply IH in R'. congruence.
      * split; [discriminate|]. intros H. inversion H as [|? r' ? rs'' F' R']; subst.
        apply IH in R'. discriminate.
    + split; [discriminate|]. intros H. inversion H; subst. congruence.
Qed.

Lemma format_orders_Err orders o e :
  o ∈ orders -> _format_order_response o = Err e ->
  exists e', format_orders orders = Err e'.
Proof.
  intros I F. induction I as [o rest|o o' rest I IH]; cbn [format_orders].
  - rewrite F. cbn [rbind]. eauto.
  - destruct (_format_order_response o'); cbn [rbind]; [|eauto].
    destruct (IH F) as [e' ->]. cbn [rbind]. eauto.
Qed.

(** X15.  The listing of open orders is all or nothing: it is returned exactly
    when every order formats, and then holds the formatted orders one for
    one and in order; one order that does not format loses the listing. *)
Theorem open_orders_all_or_nothing orders :
  (forall rs, get_open_orders (Ok orders) = Ok rs <->
     Forall2 (fun o r => _format_order_response o = Ok r) orders rs) /\
  (forall rs, get_open_orders (Ok orders) = Ok rs -> length rs = length orders) /\
  (forall o e, o ∈ orders -> _format_order_response o = Err e ->
     exists e', get_open_orders (Ok orders) = Err e').
Proof.
  unfold get_open_orders. cbn [rbind]. split; [apply format_orders_Forall2|]. split.
  - intros rs H. apply format_orders_Forall2 in H. symmetry. exact (Forall2_length _ _ _ H).
  - apply format_orders_Err.
Qed.




(** X17.  A null in a numeric field makes the formatter raise, though a missing
    one defaults to zero. *)
Theorem format_null_number_raises order k :
  k ∈ ["price"; "origQty"; "executedQty"; "avgPrice"] ->
  order !! k = Some PNone ->
  exists e, _format_order_response order = Err e.
Proof.
  intros I N. unfold _format_order_response.
  assert (E : py_float (get_default order k (PInt 0)) = Err TypeError)
    by (unfold get_default; now rewrite N).
  destruct (py_float (get_default order "price" (PInt 0))) eqn:E1; cbn [rbind]; [|eauto].
  destruct (py_float (get_default order "origQty" (PInt 0))) eqn:E2; cbn [rbind]; [|eauto].
  destruct (py_float (get_default order "executedQty" (PInt 0))) eqn:E3; cbn [rbind];
    [|eauto].
  destruct (py_float (get_default order "avgPrice" (PInt 0))) eqn:E4; cbn [rbind]; [|eauto].
  exfalso.
  repeat (apply elem_of_cons in I as [I|I]; [subst k; congruence|]).
  apply elem_of_nil in I. exact I.
Qed.

Lemma find_absent symbol symbols :
  Forall (fun s => si_symbol s <> symbol) symbols ->
  List.find (fun s => String.eqb (si_symbol s) symbol) symbols = None.
Proof.
  induction 1 as [|s rest N _ IH]; [reflexivity|]. cbn [List.find].
  apply String.eqb_neq in N. now rewrite N.
Qed.

Lemma lookup_fails_step symbol b :
  lookup_fails symbol b ->
  exists e,
    get_symbol_info symbol b
    = ({| client := client b; _symbol_info_cache := _symbol_info_cache b;
          remote_calls := remote_calls b ++ [FuturesExchangeInfo] |}, Err e).
Proof.
  intros [C A]. specialize (A (remote_calls b)).
  destruct (get_symbol_info_cases symbol b) as [(s & C' & _)|[_ H]]; [congruence|].
  cbv zeta in H.
  destruct (futures_exchange_info (client b) (remote_calls b)) as [symbols|e]; [|eauto].
  rewrite (find_absent _ _ A) in H. eauto.
Qed.

Lemma run_check_skipped symbol c b b1 e :
  get_symbol_info symbol b = (b1, Err e) ->
  run_check symbol c b = (b1, (true, "Validation skipped", check_value c)).
Proof.
  intros H. destruct c; cbn [run_check check_value];
    [unfold _validate_quantity, _validate_quantity_try
    |unfold _validate_price, _validate_price_try];
    unfold bind; now rewrite H.
Qed.

Lemma run_checks_skipped symbol cs b :
  lookup_fails symbol b ->
  snd (run_checks symbol cs b) = inr (map check_value cs).
Proof.
  revert b. induction cs as [|c rest IH]; intros b F; [reflexivity|].
  cbn [run_checks map]. destruct (lookup_fails_step symbol b F) as [e G].
  rewrite (run_check_skipped symbol c b _ e G).
  specialize (IH _ (F : lookup_fails symbol
                         {| client := client b; _symbol_info_cache := _symbol_info_cache b;
                            remote_calls := remote_calls b ++ [FuturesExchangeInfo] |})).
  destruct (run_checks symbol rest _) as [b2 [msg|adjs]]; cbn [snd] in *; congruence.
Qed.

Lemma run_checks_cached symbol cs b s :
  _symbol_info_cache b !! symbol = Some s ->
  fst (run_checks symbol cs b) = b.
Proof.
  intros C. induction cs as [|c rest IH]; [reflexivity|]. cbn [run_checks].
  pose proof (run_check_state symbol c b) as S. unfold get_symbol_info in S at 1.
  rewrite C in S. cbn [fst] in S.
  destruct (run_check symbol c b) as [b1 [[[] msg] adj]]; cbn [fst] in S; subst b1;
    [|reflexivity].
  now destruct (run_checks symbol rest b) as [b2 [?|?]].
Qed.

Lemma checks_nonempty r : checks r <> [].
Proof. now destruct r. Qed.

(** X18.  With the symbol's metadata unavailable, every order method sends the
    caller's raw values. *)
Theorem order_is_sent_unchecked_without_metadata r b :
  lookup_fails (request_symbol r) b ->
  orders_sent b (fst (place r b)) = [request_params r (map check_value (checks r))].
Proof.
  intros F. pose proof (run_checks_skipped (request_symbol r) (checks r) b F) as S.
  destruct (run_checks (request_symbol r) (checks r) b) as [b' [msg|adjs]] eqn:H;
    cbn [snd] in S; [discriminate|].
  injection S as ->. now destruct (place_accepted r b b' _ H) as (_ & _ & _ & _ & ->).
Qed.

(** X19.  A method call whose symbol the exchange knows fetches the metadata at
    most once, whatever the number of fields it validates: after the lookup
    it only sends the order, or nothing. *)
Theorem metadata_is_fetched_at_most_once r b s :
  snd (get_symbol_info (request_symbol r) b) = Ok s ->
  let b1 := fst (get_symbol_info (request_symbol r) b) in
  (b1 = b \/ remote_calls b1 = remote_calls b ++ [FuturesExchangeInfo]) /\
  fst (run_checks (request_symbol r) (checks r) b) = b1 /\
  (fst (place r b) = b1 \/
   exists adjs,
     remote_calls (fst (place r b))
     = remote_calls b1 ++ [FuturesCreateOrder (request_params r adjs)]).
Proof.
  intros H. cbv zeta.
  destruct (get_symbol_info (request_symbol r) b) as [b1 res] eqn:G.
  cbn [fst snd] in *. subst res.
  destruct (get_symbol_info_again _ _ _ _ G) as [C1 G1].
  assert (T : b1 = b \/ remote_calls b1 = remote_calls b ++ [FuturesExchangeInfo]).
  { destruct (get_symbol_info_cases (request_symbol r) b) as [(s' & C & E)|[C E]].
    - left. rewrite E in G. congruence.
    - right. cbv zeta in E.
      destruct (futures_exchange_info (client b) (remote_calls b)) as [symbols|e];
        [|rewrite E in G; discriminate].
      destruct (List.find _ symbols) as [s'|]; rewrite E in G; [|discriminate].
      now injection G as <- <-. }
  assert (R : fst (run_checks (request_symbol r) (checks r) b) = b1).
  { pose proof (checks_nonempty r) as N.
    destruct (checks r) as [|c rest]; [contradiction|]. cbn [run_checks].
    pose proof (run_check_state (request_symbol r) c b) as S. rewrite G in S. cbn [fst] in S.
    destruct (run_check (request_symbol r) c b) as [b2 [[[] msg] adj]]; cbn [fst] in S;
      subst b2; [|reflexivity].
    pose proof (run_checks_cached (request_symbol r) rest b1 s C1) as K.
    now destruct (run_checks (request_symbol r) rest b1) as [b3 [?|?]]. }
  split; [exact T|]. split; [exact R|].
  destruct (run_checks (request_symbol r) (checks r) b) as [b' [msg|adjs]] eqn:Q;
    cbn [fst] in R; subst b'.
  - left. now destruct (place_refused r b b1 msg Q) as [-> _].
  - right. exists adjs. destruct (place_accepted r b b1 adjs Q) as (-> & _).
    now rewrite submit_order_run.
Qed.

Lemma symbol_lookup_is_cached_witness :
  let b1 := fst (get_symbol_info "BTCUSDT" btc_bot) in
  get_symbol_info "BTCUSDT" btc_bot = (b1, Ok btc_info) /\
  _symbol_info_cache b1 !! "BTCUSDT" = Some btc_info /\
  get_symbol_info "BTCUSDT" b1 = (b1, Ok btc_info) /\
  (forall q, fst (_validate_quantity "BTCUSDT" q b1) = b1) /\
  (forall p, fst (_validate_price "BTCUSDT" p b1) = b1).
Proof.
  intros b1.
  assert (H : get_symbol_info "BTCUSDT" btc_bot = (b1, Ok btc_info))
    by (vm_compute; reflexivity).
  split; [exact H|]. exact (symbol_lookup_is_cached "BTCUSDT" btc_bot b1 btc_info H).
Defined.

Lemma failed_lookup_leaves_cache_witness :
  let b1 := fst (get_symbol_info "NOSUCH" btc_bot) in
  get_symbol_info "NOSUCH" btc_bot = (b1, Err (ValueError "Symbol NOSUCH not found")) /\
  _symbol_info_cache b1 = _symbol_info_cache btc_bot /\
  remote_calls b1 = remote_calls btc_bot ++ [FuturesExchangeInfo].
Proof.
  intros b1.
  assert (H : get_symbol_info "NOSUCH" btc_bot
              = (b1, Err (ValueError "Symbol NOSUCH not found")))
    by (vm_compute; reflexivity).
  split; [exact H|].
  destruct (failed_lookup_leaves_cache "NOSUCH" btc_bot b1 _ H) as (C & _ & T & _).
  split; [exact C|exact T].
Defined.

Lemma refused_order_is_not_sent_witness :
  let r := MarketOrder "BTCUSDT" BUY (fl "0.0001") false in
  let b' := fst (run_checks "BTCUSDT" (checks r) btc_bot) in
  run_checks (request_symbol r) (checks r) btc_bot
    = (b', inl "Quantity 0.0001 below minimum 0.001") /\
  place r btc_bot = (b', Err (ValueError "Quantity 0.0001 below minimum 0.001")) /\
  fetches_only btc_bot b' /\ orders_sent btc_bot b' = [].
Proof.
  intros r b'.
  assert (H : run_checks (request_symbol r) (checks r) btc_bot
              = (b', inl "Quantity 0.0001 below minimum 0.001"))
    by (vm_compute; reflexivity).
  split; [exact H|]. exact (refused_order_is_not_sent r btc_bot b' _ H).
Defined.

Lemma accepted_order_is_sent_once_witness :
  let r := LimitOrder "BTCUSDT" BUY (fl "0.0019") (fl "123.456") "GTC" false in
  let b' := fst (run_checks "BTCUSDT" (checks r) btc_bot) in
  let params := request_params r [fl "0.001"; fl "123.4"] in
  run_checks (request_symbol r) (checks r) btc_bot = (b', inr [fl "0.001"; fl "123.4"]) /\
  remote_calls (fst (place r btc_bot)) = remote_calls b' ++ [FuturesCreateOrder params] /\
  orders_sent btc_bot (fst (place r btc_bot)) = [params].
Proof.
  intros r b' params.
  assert (H : run_checks (request_symbol r) (checks r) btc_bot
              = (b', inr [fl "0.001"; fl "123.4"]))
    by (vm_compute; reflexivity).
  split; [exact H|].
  destruct (accepted_order_is_sent_once r btc_bot b' _ H) as (T & _ & S & _).
  split; [exact T|exact S].
Defined.

Lemma answer_without_id_raises_after_sending_witness :
  let r := MarketOrder "BTCUSDT" BUY (fl "0.0019") false in
  let params := request_params r [fl "0.001"] in
  snd (place r mute_bot) = Err (KeyError "orderId") /\
  orders_sent mute_bot (fst (place r mute_bot)) = [params].
Proof.
  intros r params.
  assert (H : run_checks (request_symbol r) (checks r) mute_bot
              = (fst (run_checks (request_symbol r) (checks r) mute_bot),
                 inr [fl "0.001"]))
    by (vm_compute; reflexivity).
  destruct (answer_without_id_raises_after_sending r mute_bot _ _ params H eq_refl)
    as (E & _ & S).
  split; [apply E; vm_compute; reflexivity|exact S].
Defined.

Lemma sent_request_fixed_fields_witness :
  let r := StopLimitOrder "BTCUSDT" BUY (fl "0.0019") (fl "123.456") (fl "130.02")
             "GTC" false in
  stop_limit_example ∈ orders_sent btc_bot (fst (place r btc_bot)) /\
  stop_limit_example !! "type" = Some (PStr "STOP") /\
  stop_limit_example !! "timeInForce" = Some (PStr "GTC").
Proof.
  intros r.
  assert (M : stop_limit_example ∈ orders_sent btc_bot (fst (place r btc_bot)))
    by (unfold r; cbn [place]; rewrite stop_limit_example_sent; apply list_elem_of_here).
  split; [exact M|].
  destruct (sent_request_fixed_fields r btc_bot stop_limit_example M)
    as (_ & _ & T & _ & F & _).
  split; [exact T|exact F].
Defined.

Lemma cache_stays_named_witness :
  cache_named btc_bot /\
  cache_named (fst (place (MarketOrder "BTCUSDT" BUY (fl "0.0019") false) btc_bot)) /\
  cache_named (fst (get_positions None btc_bot)).
Proof.
  split; [apply new_bot_named|].
  destruct (cache_stays_named btc_bot "BTCUSDT" (fl "0.0019")
              (MarketOrder "BTCUSDT" BUY (fl "0.0019") false) None 10
              (new_bot_named _)) as (_ & _ & _ & _ & P & G & _).
  split; [exact P|exact G].
Defined.

Lemma accepted_value_rounds_down_witness :
  (exists msg adj,
     snd (_validate_quantity "BTCUSDT" (fl "0.0019") btc_bot) = (true, msg, adj) /\
     (float_val adj <= float_val (fl "0.0019"))%Q /\
     (float_val (fl "0.0019") < float_val adj + float_val (fl "0.001"))%Q) /\
  (exists msg adj,
     snd (_validate_price "BTCUSDT" (fl "123.456") btc_bot) = (true, msg, adj) /\
     (float_val adj <= float_val (fl "123.456"))%Q /\
     (float_val (fl "123.456") < float_val adj + float_val (fl "0.1"))%Q).
Proof.
  split.
  - refine (proj1 (accepted_value_rounds_down btc_bot "BTCUSDT" _
                     (fl "0.001") (fl "1000") (fl "0.001") (fl "0.0019") _ _ _ _) _ _).
    + reflexivity.
    + reflexivity.
    + vm_compute. reflexivity.
    + intros H. vm_compute in H. discriminate.
    + reflexivity.
    + intros H. vm_compute in H. discriminate.
  - refine (proj2 (accepted_value_rounds_down btc_bot "BTCUSDT" _
                     (fl "100") (fl "0") (fl "0.1") (fl "123.456") _ _ _ _) _ _).
    + reflexivity.
    + reflexivity.
    + vm_compute. reflexivity.
    + intros H. vm_compute in H. discriminate.
    + reflexivity.
    + intros [H _]. vm_compute in H. discriminate.
Defined.

Lemma accepted_value_stays_in_bounds_witness :
  (exists msg adj,
     snd (_validate_quantity "BTCUSDT" (fl "0.0019") btc_bot) = (true, msg, adj) /\
     ~ flt adj (fl "0.001") /\ ~ flt (fl "1000") adj) /\
  (exists msg adj,
     snd (_validate_price "BTCUSDT" (fl "123.456") btc_bot) = (true, msg, adj) /\
     ~ flt adj (fl "100") /\ ~ (flt float_zero (fl "0") /\ flt (fl "0") adj)).
Proof.
  split.
  - refine (proj1 (accepted_value_stays_in_bounds btc_bot "BTCUSDT" _
                     (fl "0.001") (fl "1000") (fl "0.001") (fl "0.0019") _ _ _ _) _ _).
    + reflexivity.
    + reflexivity.
    + apply (multiple_of_intro 1). vm_compute. reflexivity.
    + intros H. vm_compute in H. discriminate.
    + reflexivity.
    + intros H. vm_compute in H. discriminate.
  - refine (proj2 (accepted_value_stays_in_bounds btc_bot "BTCUSDT" _
                     (fl "100") (fl "0") (fl "0.1") (fl "123.456") _ _ _ _) _ _).
    + reflexivity.
    + reflexivity.
    + apply (multiple_of_intro 1000). vm_compute. reflexivity.
    + intros H. vm_compute in H. discriminate.
    + reflexivity.
    + intros [H _]. vm_compute in H. discriminate.
Defined.

Lemma validation_is_idempotent_witness :
  (exists msg msg' adj,
     snd (_validate_quantity "BTCUSDT" (fl "0.0019") btc_bot) = (true, msg, adj) /\
     snd (_validate_quantity "BTCUSDT" adj
            (fst (_validate_quantity "BTCUSDT" (fl "0.0019") btc_bot)))
     = (true, msg', adj)) /\
  (exists msg msg' adj,
     snd (_validate_price "BTCUSDT" (fl "123.456") btc_bot) = (true, msg, adj) /\
     snd (_validate_price "BTCUSDT" adj
            (fst (_validate_price "BTCUSDT" (fl "123.456") btc_bot)))
     = (true, msg', adj)).
Proof.
  split.
  - refine (proj1 (validation_is_idempotent btc_bot "BTCUSDT" _
                     (fl "0.001") (fl "1000") (fl "0.001") (fl "0.0019") _ _ _ _) _ _).
    + reflexivity.
    + reflexivity.
    + apply (multiple_of_intro 1). vm_compute. reflexivity.
    + intros H. vm_compute in H. discriminate.
    + reflexivity.
    + intros H. vm_compute in H. discriminate.
  - refine (proj2 (validation_is_idempotent btc_bot "BTCUSDT" _
                     (fl "100") (fl "0") (fl "0.1") (fl "123.456") _ _ _ _) _ _).
    + reflexivity.
    + reflexivity.
    + apply (multiple_of_intro 1000). vm_compute. reflexivity.
    + intros H. vm_compute in H. discriminate.
    + reflexivity.
    + intros [H _]. vm_compute in H. discriminate.
Defined.

Lemma entry_of_other_intro asset entry v :
  entry !! "asset" = Some v -> eq_str v asset = false -> entry_of_other asset entry.
Proof. intros H N. now exists v. Qed.

Lemma entry_of_intro asset entry v :
  entry !! "asset" = Some v -> eq_str v asset = true -> entry_of asset entry.
Proof. intros H N. now exists v. Qed.

Lemma first_balance_entry_decides_witness :
  get_balance "USDT" (Ok [raw_balance "BTC" "0.5"]) = Ok (zero_balance "USDT") /\
  get_balance "USDT"
    (Ok ([raw_balance "BTC" "0.5"]
         ++ raw_balance "USDT" "100.5" :: [raw_balance "USDT" "7"; ∅]))
  = balance_of_raw "USDT" (raw_balance "USDT" "100.5").
Proof.
  assert (H : Forall (entry_of_other "USDT") [raw_balance "BTC" "0.5"]).
  { constructor; [|constructor].
    apply (entry_of_other_intro _ _ (PStr "BTC")); reflexivity. }
  destruct (first_balance_entry_decides "USDT" _ H) as [Z F].
  split; [exact Z|]. apply F.
  apply (entry_of_intro _ _ (PStr "USDT")); reflexivity.
Defined.

Lemma returned_balance_is_of_asset_witness :
  let answer := Ok [raw_balance "BTC" "0.5"; raw_balance "USDT" "100.5"] in
  let r := {| bal_asset := "USDT"; balance := fl "100.5"; available := fl "100.5";
              cross_wallet := float_zero |} in
  get_balance "USDT" answer = Ok r /\ bal_asset r = "USDT".
Proof.
  intros answer r.
  assert (H : get_balance "USDT" answer = Ok r) by (vm_compute; reflexivity).
  split; [exact H|]. exact (proj1 (returned_balance_is_of_asset "USDT" answer r H)).
Defined.


Lemma format_null_number_raises_witness :
  exists e, _format_order_response null_price_order = Err e.
Proof.
  apply (format_null_number_raises null_price_order "price").
  - apply list_elem_of_here.
  - reflexivity.
Defined.

Lemma order_is_sent_unchecked_without_metadata_witness :
  let r := MarketOrder "NOSUCH" BUY (fl "5000") false in
  lookup_fails "NOSUCH" btc_bot /\
  orders_sent btc_bot (fst (place r btc_bot)) = [request_params r [fl "5000"]].
Proof.
  intros r.
  assert (F : lookup_fails (request_symbol r) btc_bot).
  { split; [reflexivity|]. intros calls. cbn.
    repeat (constructor; [discriminate|]). constructor. }
  split; [exact F|]. exact (order_is_sent_unchecked_without_metadata r btc_bot F).
Defined.

Lemma metadata_is_fetched_at_most_once_witness :
  let r := StopLimitOrder "BTCUSDT" BUY (fl "0.0019") (fl "123.456") (fl "130.02")
             "GTC" false in
  let b1 := fst (get_symbol_info "BTCUSDT" btc_bot) in
  snd (get_symbol_info "BTCUSDT" btc_bot) = Ok btc_info /\
  fst (run_checks "BTCUSDT" (checks r) btc_bot) = b1 /\
  (fst (place r btc_bot) = b1 \/
   exists adjs,
     remote_calls (fst (place r btc_bot))
     = remote_calls b1 ++ [FuturesCreateOrder (request_params r adjs)]).
Proof.
  intros r b1.
  assert (H : snd (get_symbol_info (request_symbol r) btc_bot) = Ok btc_info)
    by (vm_compute; reflexivity).
  split; [exact H|]. exact (proj2 (metadata_is_fetched_at_most_once r btc_bot btc_info H)).
Defined.
